(** * LexiAI: vocabulary store, tool functions and tool-dispatch loop

    A shallow embedding of [app.py]: the [memory] table of the SQLite
    database, the three tool functions registered with the language model,
    the helper functions of the sidebar, and the chat turn
    ([handle_chat_input]) that executes the tool calls requested by the
    model.  The language model, the vector index, the clock behind
    [datetime('now')] and SQLite's [RANDOM()] are external: they are
    oracles of an environment record, consulted with a counter so that two
    consultations may answer differently. *)

From Stdlib Require Import String Ascii List ZArith Bool Lia Permutation Sorted.
Import ListNotations.
Local Open Scope string_scope.

(** ** Python strings

    A [str] is modelled by its bytes.  [lower] is [str.lower] on the ASCII
    letters; bytes outside [A-Z] are left as they are. *)

Definition nl : string := String "010" EmptyString.

Definition lower_char (c : ascii) : ascii :=
  let n := nat_of_ascii c in
  if ((65 <=? n) && (n <=? 90))%nat then ascii_of_nat (n + 32) else c.

Fixpoint lower (s : string) : string :=
  match s with
  | EmptyString => EmptyString
  | String c s' => String (lower_char c) (lower s')
  end.

(** [sep.join(parts)] *)
Definition join (sep : string) (parts : list string) : string :=
  String.concat sep parts.

(** ** Exceptions and results *)

(** The exception classes that the modelled code can meet; each carries the
    text that [str(e)] gives. *)
Inductive Exception : Type :=
| OverflowError (msg : string)
| ValidationError (msg : string)
| AttributeError (msg : string)
| ServiceError (msg : string)
| TypeError (msg : string).

Definition str_of_exception (e : Exception) : string :=
  match e with
  | OverflowError m | ValidationError m | AttributeError m | ServiceError m
  | TypeError m => m
  end.

Inductive result (A : Type) : Type :=
| Ok (a : A)
| Raise (e : Exception).
Arguments Ok {A} a.
Arguments Raise {A} e.

(** ** The [memory] table

    [CREATE TABLE memory (kata TEXT, arti TEXT, inserted_at TEXT DEFAULT
    (datetime('now')))]: no key, no uniqueness constraint, so the table is
    a list of rows in insertion (rowid) order.  [inserted_at] is the text
    [YYYY-MM-DD HH:MM:SS], compared as text. *)

Record Row : Type := mkRow {
  kata : string;
  arti : string;
  inserted_at : string
}.

Definition Store : Type := list Row.

(** *** SQL fragments used by the queries *)

Section OrderBy.
Context {A K : Type} (leb : K -> K -> bool) (key : A -> K).

(** [ORDER BY key] under the order [leb]: a stable insertion sort, so rows
    with equal keys keep their scan order (SQLite leaves the order of ties
    open). *)
Fixpoint insert_by (x : A) (l : list A) : list A :=
  match l with
  | [] => [x]
  | y :: l' => if leb (key x) (key y) then x :: y :: l' else y :: insert_by x l'
  end.

Fixpoint order_by (l : list A) : list A :=
  match l with
  | [] => []
  | x :: l' => insert_by x (order_by l')
  end.

End OrderBy.

(** [LIMIT n]: a negative [n] means no upper bound. *)
Definition sql_limit {A : Type} (n : Z) (l : list A) : list A :=
  if (n <? 0)%Z then l else firstn (Z.to_nat n) l.

(** Binding a Python [int] to a statement parameter: SQLite integers are
    signed 64-bit, and the [sqlite3] module raises outside that range. *)
Definition bind_int (n : Z) : result Z :=
  if ((- 2 ^ 63 <=? n) && (n <? 2 ^ 63))%Z then Ok n
  else Raise (OverflowError "Python int too large to convert to SQLite INTEGER").

(** [WHERE kata = ?]: text equality under the default BINARY collation. *)
Definition kata_is (key : string) (r : Row) : bool := String.eqb (kata r) key.

(** ** The tool functions *)

Definition msg_exists (word : string) : string :=
  "Kata '" ++ word ++ "' sudah ada di database, tidak ditambahkan ulang.".

Definition msg_added (word meaning : string) : string :=
  "Berhasil menambahkan '" ++ word ++ "' (" ++ meaning ++ ") ke kosakata Anda".

(** [f_memory_update(word, meaning)]; [now] is the value of
    [datetime('now')] when the row is inserted. *)
Definition f_memory_update (now : string) (word meaning : string) (db : Store)
  : string * Store :=
  let exists_ := existsb (kata_is (lower word)) db in
  if exists_ then (msg_exists word, db)
  else (msg_added word meaning, (db ++ [mkRow word meaning now])%list).

Definition msg_empty : string := "Database kosong.".

Definition bullet (r : Row) : string := "- " ++ kata r ++ " (" ++ arti r ++ ")".

(** What [f_memory_query] returns for the fetched rows. *)
Definition format_results (results : list Row) : string :=
  match results with
  | [] => msg_empty
  | _ :: _ => "Kosakata acak yang tersimpan:" ++ nl ++ join nl (map bullet results)
  end.

(** [SELECT kata, arti FROM memory ORDER BY RANDOM() LIMIT ?]: [RANDOM()] is
    evaluated once per scanned row, [rnd i] being the draw for row [i]. *)
Definition select_random (rnd : nat -> Z) (n : Z) (db : Store) : list Row :=
  let keyed := combine (map rnd (seq 0 (length db))) db in
  sql_limit n (map snd (order_by Z.leb fst keyed)).

(** [f_memory_query(rows_query=5)] *)
Definition f_memory_query (rnd : nat -> Z) (rows_query : Z) (db : Store)
  : result string :=
  match bind_int rows_query with
  | Raise e => Raise e
  | Ok n => Ok (format_results (select_random rnd n db))
  end.

(** ** Helper functions of the sidebar *)

Definition get_vocabulary_count (db : Store) : nat := length db.

(** [ORDER BY inserted_at DESC]: descending text order. *)
Definition desc (a b : string) : bool := String.leb b a.

(** [get_recent_vocabulary(limit=10)] *)
Definition get_recent_vocabulary (limit : Z) (db : Store) : result (list Row) :=
  match bind_int limit with
  | Raise e => Raise e
  | Ok n => Ok (sql_limit n (order_by desc inserted_at db))
  end.

(** [delete_vocabulary(word)]: [DELETE FROM memory WHERE kata = ?]. *)
Definition delete_vocabulary (word : string) (db : Store) : string * Store :=
  ("Kata '" ++ word ++ "' berhasil dihapus",
   filter (fun r => negb (kata_is word r)) db).

(** ** Messages and tool calls *)

(** A value of a tool call's arguments: a string, an integer, or anything
    else JSON allows. *)
Inductive Value : Type :=
| VStr (s : string)
| VInt (n : Z)
| VOther.

(** A Python [dict] with string keys, as the list of its items; [d[key]]
    is the first item under [key]. *)
Definition Dict : Type := list (string * Value).

Fixpoint dict_get (key : string) (d : Dict) : option Value :=
  match d with
  | [] => None
  | (k, v) :: d' => if String.eqb k key then Some v else dict_get key d'
  end.

(** An entry of [ai_msg.tool_calls].  LangChain gives the arguments already
    parsed ([args] is a dict; calls whose arguments do not parse are kept
    apart in [invalid_tool_calls]), so the [json.loads] branch of the loop
    is never taken; the model binding gives every call an [id]. *)
Record ToolCall : Type := mkCall {
  call_name : string;
  call_args : Dict;
  call_id : string
}.

Record AIMsg : Type := mkAI {
  ai_content : string;
  ai_tool_calls : list ToolCall
}.

Inductive Message : Type :=
| SystemMessage (content : string)
| HumanMessage (content : string)
| AIMessage (m : AIMsg)
| ToolMessage (content : string) (tool_call_id : string).

(** ** The environment and the world *)

(** What the program does not define: the prompt text, the clock, SQLite's
    random draws, the model with the tools bound, the vector index
    ([None] when [load_vector_db] found no index files) and the plain model
    used by the lookup tool.  The first argument of an oracle is the
    counter of the world at the consultation.  A chat model answers with
    an [AIMessage] or raises. *)
Record Env : Type := mkEnv {
  SYSTEM_PROMPT : string;
  datetime_now : nat -> string;
  sqlite_random : nat -> nat -> Z;
  llm_with_tools : nat -> list Message -> result AIMsg;
  vector_db : option (nat -> string -> result (list string));
  llm : nat -> string -> result string
}.

(** [memory.db], [st.session_state] (where [messages] may be absent) and the
    consultation counter. *)
Record World : Type := mkWorld {
  memory : Store;
  messages : option (list Message);
  tick : nat
}.

(** *** Computations: state that survives a raised exception *)

Definition M (A : Type) : Type := World -> World * result A.

Definition ret {A : Type} (a : A) : M A := fun w => (w, Ok a).

Definition raise {A : Type} (e : Exception) : M A := fun w => (w, Raise e).

Definition bind {A B : Type} (m : M A) (k : A -> M B) : M B :=
  fun w =>
    match m w with
    | (w', Ok a) => k a w'
    | (w', Raise e) => (w', Raise e)
    end.

(** [try: m except Exception as e: handler(e)] *)
Definition try_except {A : Type} (m : M A) (handler : Exception -> M A) : M A :=
  fun w =>
    match m w with
    | (w', Ok a) => (w', Ok a)
    | (w', Raise e) => handler e w'
    end.

Notation "x <- c1 ;; c2" := (bind c1 (fun x => c2))
  (at level 61, c1 at next level, right associativity).
Notation "c1 ;; c2" := (bind c1 (fun _ => c2))
  (at level 61, right associativity).

(** Consult an oracle and advance the counter. *)
Definition consult {A : Type} (oracle : nat -> result A) : M A :=
  fun w => (mkWorld (memory w) (messages w) (S (tick w)), oracle (tick w)).

(** Run a pure operation on the [memory] table. *)
Definition on_memory {A : Type} (op : Store -> A * Store) : M A :=
  fun w => let (a, db) := op (memory w) in
           (mkWorld db (messages w) (tick w), Ok a).

Definition get_memory : M Store := fun w => (w, Ok (memory w)).

(** [st.session_state.messages.extend(msgs)]; the attribute must exist. *)
Definition extend_messages (msgs : list Message) : M unit :=
  fun w =>
    match messages w with
    | Some history =>
        (mkWorld (memory w) (Some (history ++ msgs)%list) (tick w), Ok tt)
    | None =>
        (w, Raise (AttributeError "st.session_state has no attribute 'messages'"))
    end.

Definition append_message (msg : Message) : M unit := extend_messages [msg].

(** The greeting shown when a session starts. *)
Definition GREETING : string :=
  "Halo! Saya LexiAI, asisten belajar bahasa Jepang pribadi Anda." ++ nl ++ nl ++
  "Saya memiliki tiga fitur utama untuk membantu Anda belajar bahasa Jepang secara efektif:" ++ nl ++
  "1. **Menambahkan Kosakata Baru:** Anda dapat menambahkan kata baru beserta artinya ke daftar kosakata Anda." ++ nl ++
  "2. **Mencari Arti Kata atau Terjemahan:** Saya bisa menampilkan arti kata, terjemahan, dan informasi terkait kosakata." ++ nl ++
  "3. **Meninjau Kosakata yang Sudah Dipelajari:** Anda bisa meminta saya menampilkan kembali kata-kata yang telah ditambahkan." ++ nl ++ nl ++
  "Apa yang ingin Anda lakukan hari ini?".

Section Deployment.
Variable env : Env.

(** [if "messages" not in st.session_state: st.session_state.messages = [...]] *)
Definition init_messages : M unit :=
  fun w =>
    match messages w with
    | Some _ => (w, Ok tt)
    | None =>
        (mkWorld (memory w)
           (Some [SystemMessage (SYSTEM_PROMPT env); AIMessage (mkAI GREETING [])])
           (tick w), Ok tt)
    end.

(** *** The tools as the model invokes them: [tool.invoke(args)]

    The arguments are checked against the tool's signature first: a
    missing required argument or one of another type raises; other keys
    are ignored. *)

Definition validation_error (tool field : string) : Exception :=
  ValidationError ("1 validation error for " ++ tool ++ nl ++ field).

Definition invoke_f_memory_update (args : Dict) : M string :=
  match dict_get "word" args with
  | Some (VStr word) =>
      match dict_get "meaning" args with
      | Some (VStr meaning) =>
          now <- consult (fun t => Ok (datetime_now env t));;
          on_memory (f_memory_update now word meaning)
      | _ => raise (validation_error "f_memory_update" "meaning")
      end
  | _ => raise (validation_error "f_memory_update" "word")
  end.

Definition query_memory (rows_query : Z) : M string :=
  db <- get_memory;;
  consult (fun t => f_memory_query (sqlite_random env t) rows_query db).

Definition invoke_f_memory_query (args : Dict) : M string :=
  match dict_get "rows_query" args with
  | None => query_memory 5
  | Some (VInt rows_query) => query_memory rows_query
  | Some _ => raise (validation_error "f_memory_query" "rows_query")
  end.

(** [f_lookup_dictionary(question)] *)
Definition f_lookup_dictionary (question : string) : M string :=
  match vector_db env with
  | None =>
      raise (AttributeError "'NoneType' object has no attribute 'similarity_search'")
  | Some similarity_search =>
      relevant_docs <- consult (fun t => similarity_search t question);;
      let docs_content := join nl relevant_docs in
      consult (fun t =>
        llm env t ("Context: " ++ docs_content ++ nl ++ "Question: " ++ question))
  end.

Definition invoke_f_lookup_dictionary (args : Dict) : M string :=
  match dict_get "question" args with
  | Some (VStr question) => f_lookup_dictionary question
  | _ => raise (validation_error "f_lookup_dictionary" "question")
  end.

(** [add_vocabulary_manual(word, meaning)] *)
Definition add_vocabulary_manual (word meaning : string) : M string :=
  invoke_f_memory_update [("word", VStr word); ("meaning", VStr meaning)].

(** *** [handle_random_vocabulary] *)

Definition handle_random_vocabulary : M unit :=
  result_ <- invoke_f_memory_query [("rows_query", VInt 5)];;
  let formatted_result :=
    "**ğŸ² Kosakata Acak dari Database Anda:**" ++ nl ++ nl ++ result_ in
  init_messages;;
  append_message (HumanMessage "Tampilkan 5 kosakata acak yang sudah saya pelajari");;
  append_message (AIMessage (mkAI formatted_result [])).

(** *** [handle_chat_input] *)

(** The body of the [try] for one call: the chain of comparisons on the
    tool's name. *)
Definition dispatch (call : ToolCall) : M string :=
  let tool_name := call_name call in
  if String.eqb tool_name "f_memory_update" then
    invoke_f_memory_update (call_args call)
  else if String.eqb tool_name "f_memory_query" then
    invoke_f_memory_query (call_args call)
  else if String.eqb tool_name "f_lookup_dictionary" then
    invoke_f_lookup_dictionary (call_args call)
  else ret ("Tool tidak dikenal: " ++ tool_name).

Definition error_msg (tool_name : string) (e : Exception) : string :=
  "Error saat menjalankan tool " ++ tool_name ++ ": " ++ str_of_exception e.

(** One iteration of [for call in ai_msg.tool_calls]: the message appended
    to [tool_results]. *)
Definition run_call (call : ToolCall) : M Message :=
  let tool_name := call_name call in
  let tool_id := call_id call in
  try_except
    (result_ <- dispatch call;; ret (ToolMessage result_ tool_id))
    (fun e => ret (ToolMessage (error_msg tool_name e) tool_id)).

(** The whole loop: the list [tool_results]. *)
Fixpoint run_tool_calls (calls : list ToolCall) : M (list Message) :=
  match calls with
  | [] => ret []
  | call :: calls' =>
      msg <- run_call call;;
      msgs <- run_tool_calls calls';;
      ret (msg :: msgs)
  end.

(** [llm_with_tools.invoke(st.session_state.messages)] *)
Definition invoke_llm_with_tools : M AIMsg :=
  fun w =>
    match messages w with
    | Some history => consult (fun t => llm_with_tools env t history) w
    | None =>
        (w, Raise (AttributeError "st.session_state has no attribute 'messages'"))
    end.

(** The result is [final_response_content], the text rendered as the
    assistant's answer. *)
Definition handle_chat_input (prompt : string) : M string :=
  append_message (HumanMessage prompt);;
  ai_msg <- invoke_llm_with_tools;;
  append_message (AIMessage ai_msg);;
  match ai_tool_calls ai_msg with
  | _ :: _ =>
      tool_results <- run_tool_calls (ai_tool_calls ai_msg);;
      extend_messages tool_results;;
      final_response <- invoke_llm_with_tools;;
      append_message (AIMessage final_response);;
      ret (ai_content final_response)
  | [] => ret (ai_content ai_msg)
  end.

(** *** One run of the script

    What the user did since the last run decides which branch of the page
    acts; [st.rerun()] after the delete and the random-vocabulary buttons
    starts the script again, which reaches the initialisation of
    [messages]. *)
Inductive Event : Type :=
| AddForm (word_input meaning_input : string)
| DeleteButton (word_to_delete : string)
| RandomButton
| RefreshButton
| ChatInput (prompt : string).

Definition is_empty (s : string) : bool :=
  match s with EmptyString => true | _ => false end.

Definition script_run (ev : Event) : M unit :=
  match ev with
  | AddForm word_input meaning_input =>
      (if negb (is_empty word_input) && negb (is_empty meaning_input)
       then add_vocabulary_manual word_input meaning_input;; ret tt
       else ret tt);;
      init_messages
  | DeleteButton word_to_delete =>
      on_memory (delete_vocabulary word_to_delete);;
      init_messages
  | RandomButton => handle_random_vocabulary;; init_messages
  | RefreshButton => init_messages
  | ChatInput prompt =>
      init_messages;;
      if is_empty prompt then ret tt else (handle_chat_input prompt;; ret tt)
  end.

(** The worlds reached from a fresh session (any table contents, no
    [messages] yet) by runs of the script, whether a run ends normally or
    by an exception. *)
Inductive reachable : World -> Prop :=
| reach_fresh : forall db t, reachable (mkWorld db None t)
| reach_run : forall w ev, reachable w -> reachable (fst (script_run ev w)).

End Deployment.

(** ** Notions used by the properties *)

(** Two neighbours of a list ordered by [key] under [leb]. *)
Definition sorted_on {A K : Type} (leb : K -> K -> bool) (key : A -> K)
  (x y : A) : Prop :=
  leb (key x) (key y) = true.

(** Timestamps in descending order, ties allowed, and without ties. *)
Definition newer_or_same (a b : Row) : Prop :=
  String.leb (inserted_at b) (inserted_at a) = true.

Definition strictly_newer (a b : Row) : Prop :=
  String.ltb (inserted_at b) (inserted_at a) = true.

(** [kept word db db']: [db'] is [db] without the rows whose [kata] is
    exactly [word]; the other rows stay, in their order. *)
Inductive kept (word : string) : Store -> Store -> Prop :=
| kept_nil : kept word [] []
| kept_drop : forall r db db',
    kata r = word -> kept word db db' -> kept word (r :: db) db'
| kept_keep : forall r db db',
    kata r <> word -> kept word db db' -> kept word (r :: db) (r :: db').

Definition in_int64 (n : Z) : Prop := (- 2 ^ 63 <= n < 2 ^ 63)%Z.

Definition is_system (m : Message) : bool :=
  match m with SystemMessage _ => true | _ => false end.

(** A history that begins with the system prompt and holds no other system
    message. *)
Definition one_system_first (env : Env) (history : list Message) : Prop :=
  exists rest,
    history = SystemMessage (SYSTEM_PROMPT env) :: rest /\
    Forall (fun m => is_system m = false) rest.

(** How the stored history may change: an existing history gets messages
    appended, none of them a system message; an absent one stays absent or
    is created with the system prompt first. *)
Definition grows (env : Env) (before after : option (list Message)) : Prop :=
  match before with
  | Some history =>
      exists added,
        after = Some (history ++ added)%list /\
        Forall (fun m => is_system m = false) added
  | None =>
      after = None \/
      exists history, after = Some history /\ one_system_first env history
  end.

(** [answers call m]: [m] is a tool-result message for [call]. *)
Definition answers (call : ToolCall) (m : Message) : Prop :=
  exists content, m = ToolMessage content (call_id call).

(** A computation that only lets the history grow, and one whose normal
    results satisfy [P]. *)
Definition appends_only {A : Type} (env : Env) (m : M A) : Prop :=
  forall w, grows env (messages w) (messages (fst (m w))).

Definition returns {A : Type} (P : A -> Prop) (m : M A) : Prop :=
  forall w a, snd (m w) = Ok a -> P a.

(** The text recorded for a call whose execution ended with [r]. *)
Definition result_text (tool_name : string) (r : result string) : string :=
  match r with
  | Ok result_ => result_
  | Raise e => error_msg tool_name e
  end.

(** ** Concrete scenarios *)

Module Scenario.

Definition t0 : string := "2025-01-01 10:00:00".
Definition t1 : string := "2025-01-01 10:00:07".

(** Two words saved within the same second. *)
Definition same_second : Store :=
  snd (f_memory_update t0 "neko" "kucing"
         (snd (f_memory_update t0 "inu" "anjing" []))).

(** Three words saved at two different times. *)
Definition three_words : Store :=
  snd (f_memory_update t1 "Sakura" "bunga sakura" same_second).

Definition draws (i : nat) : Z := Z.of_nat i.

Definition update_call : ToolCall :=
  mkCall "f_memory_update" [("word", VStr "inu"); ("meaning", VStr "anjing")] "call_1".
Definition lookup_call : ToolCall :=
  mkCall "f_lookup_dictionary" [("question", VStr "Apa arti asagohan?")] "call_2".
Definition unknown_call : ToolCall :=
  mkCall "f_translate" [("text", VStr "inu")] "call_3".
Definition query_call : ToolCall :=
  mkCall "f_memory_query" [] "call_4".

(** A deployment without index files whose model asks for four tools on its
    first consultation and answers in text afterwards. *)
Definition model (t : nat) (history : list Message) : result AIMsg :=
  match t with
  | 0 => Ok (mkAI "" [update_call; lookup_call; unknown_call; query_call])
  | _ => Ok (mkAI "Kata inu sudah saya tambahkan." [])
  end.

Definition env : Env :=
  mkEnv "You are LexiAI." (fun _ => t0) (fun _ => draws) model None
        (fun _ _ => Ok "asagohan = sarapan").

(** The same deployment with a model service that fails when it is asked
    to integrate the tool results. *)
Definition failing_model (t : nat) (history : list Message) : result AIMsg :=
  match t with
  | 0 => Ok (mkAI "" [update_call])
  | _ => Raise (ServiceError "429 Resource has been exhausted")
  end.

Definition failing_env : Env :=
  mkEnv "You are LexiAI." (fun _ => t0) (fun _ => draws) failing_model None
        (fun _ _ => Ok "asagohan = sarapan").

Definition opened : World :=
  mkWorld [] (Some [SystemMessage "You are LexiAI."; AIMessage (mkAI GREETING [])]) 0.

End Scenario.

(** ** The functions around the tools *)

(** A [str] of ASCII characters only.  On these [lower] is [str.lower],
    which maps the letters A-Z and nothing else; on other strings
    [str.lower] also maps the capital letters outside ASCII. *)
Fixpoint ascii_only (s : string) : bool :=
  match s with
  | EmptyString => true
  | String c s' => (nat_of_ascii c <? 128)%nat && ascii_only s'
  end.

(** [needle in hay] on strings. *)
Fixpoint contains (needle hay : string) : bool :=
  String.prefix needle hay ||
  match hay with
  | EmptyString => false
  | String _ hay' => contains needle hay'
  end.

(** [s.split(sep)[0]] for a non-empty [sep]: the text before the first
    occurrence of [sep], all of [s] when there is none. *)
Fixpoint split_head (sep s : string) : string :=
  match s with
  | EmptyString => EmptyString
  | String c s' =>
      if String.prefix sep s then EmptyString else String c (split_head sep s')
  end.

(** *** [extract_and_chunk_dictionary]

    [fitz_pages pdf_path] stands for [fitz.open] and the [get_text] of every
    page: the texts of the pages, or the exception raised.  [splitlines] and
    [strip] are the methods of [str]. *)

Inductive PdfError : Type :=
| FileNotFoundError (msg : string)
| PdfException (msg : string).

(** ['(' in line or '...' in line]: the marks of a dictionary entry. *)
Definition has_entry_mark (line : string) : bool :=
  contains "(" line || contains "ï¼ˆ" line.

Section Extract.
Variable splitlines : string -> list string.
Variable strip : string -> string.
Variable fitz_pages : string -> PdfError + list string.

(** The result is the list of the chunks' [page_content], with the text
    shown by [st.error] when an exception was caught. *)
Definition extract_and_chunk_dictionary (pdf_path : string)
  : list string * option string :=
  match fitz_pages pdf_path with
  | inr pages =>
      let text := join nl pages in
      let lines := splitlines text in
      let clean_lines :=
        map strip (filter (fun l => (0 <? String.length (strip l))%nat) lines) in
      (filter has_entry_mark clean_lines, None)
  | inl (FileNotFoundError _) =>
      ([], Some ("File PDF tidak ditemukan: " ++ pdf_path))
  | inl (PdfException e) =>
      ([], Some ("Gagal mengekstrak dari PDF: " ++ e))
  end.

End Extract.

(** *** [load_vector_db] *)

Definition FAISS_FILE : string := "extension\index.faiss".
Definition DOCSTORE_FILE : string := "extension\index.pkl".

(** [path_exists] is [os.path.exists]; [read] is the outcome of reading the
    two files and wrapping them, the index as [f_lookup_dictionary] will
    search it.  Without one of the files the result is [None] (and an error
    banner is shown). *)
Definition load_vector_db (path_exists : string -> bool)
  (read : result (nat -> string -> result (list string)))
  : result (option (nat -> string -> result (list string))) :=
  if path_exists FAISS_FILE && path_exists DOCSTORE_FILE then
    match read with
    | Ok index => Ok (Some index)
    | Raise e => Raise e
    end
  else Ok None.

(** *** The delete tab of the sidebar *)

(** The options of the select box, one per recent row. *)
Definition words_to_delete (recent_vocab : list Row) : list string :=
  map (fun r => kata r ++ " - " ++ arti r) recent_vocab.

(** The button of the tab with option [choice] selected: [None] when there
    is nothing to press.  Otherwise the message shown and the table after
    the deletion. *)
Definition delete_tab (choice : nat) (db : Store) : option (string * Store) :=
  match get_recent_vocabulary 15 db with
  | Ok recent_vocab_tab3 =>
      match nth_error (words_to_delete recent_vocab_tab3) choice with
      | Some selected_vocab =>
          if is_empty selected_vocab then None
          else
            let word_to_delete := split_head " - " selected_vocab in
            Some (delete_vocabulary word_to_delete db)
      | None => None
      end
  | Raise _ => None
  end.

(** *** Relations between worlds *)

(** The table of [w'] is the table of [w] with rows added at its end. *)
Definition memory_extends (w w' : World) : Prop :=
  exists added, memory w' = (memory w ++ added)%list.

(** A computation whose every step is in [R]. *)
Definition respects {A : Type} (R : World -> World -> Prop) (m : M A) : Prop :=
  forall w, R w (fst (m w)).

(** A computation that never raises. *)
Definition never_raises {A : Type} (m : M A) : Prop :=
  forall w, exists a, snd (m w) = Ok a.

Module Sample.

Definition call_update (word meaning id : string) : ToolCall :=
  mkCall "f_memory_update" [("word", VStr word); ("meaning", VStr meaning)] id.

(** A model that answers in text. *)
Definition chatty_env : Env :=
  mkEnv "You are LexiAI." (fun _ => Scenario.t1) (fun _ => Scenario.draws)
        (fun _ _ => Ok (mkAI "Konnichiwa!" [])) None
        (fun _ _ => Ok "asagohan = sarapan").

(** A model service that is down. *)
Definition down_env : Env :=
  mkEnv "You are LexiAI." (fun _ => Scenario.t1) (fun _ => Scenario.draws)
        (fun _ _ => Raise (ServiceError "503 Service Unavailable")) None
        (fun _ _ => Ok "asagohan = sarapan").


(** A table with a word that holds the separator of the select box. *)
Definition hyphenated : Store :=
  [mkRow "inu" "anjing" Scenario.t0; mkRow "ice - cream" "es krim" Scenario.t1].

End Sample.

(** ** Facts about the SQL fragments *)

Section OrderByFacts.
Context {A K : Type} (leb : K -> K -> bool) (key : A -> K).
Hypothesis leb_total : forall a b, leb a b = true \/ leb b a = true.


Lemma insert_by_perm (x : A) (l : list A) :
  Permutation (x :: l) (insert_by leb key x l).
Proof.
  induction l as [|y l IH]; simpl.
  - apply Permutation_refl.
  - destruct (leb (key x) (key y)).
    + apply Permutation_refl.
    + eapply perm_trans; [apply perm_swap|].
      apply perm_skip, IH.
Qed.

Lemma order_by_perm (l : list A) : Permutation l (order_by leb key l).
Proof.
  induction l as [|x l IH]; simpl.
  - constructor.
  - eapply perm_trans; [apply perm_skip, IH|].
    apply insert_by_perm.
Qed.

Lemma insert_by_hd (x y : A) (l : list A) :
  (sorted_on leb key) y x -> HdRel (sorted_on leb key) y l -> HdRel (sorted_on leb key) y (insert_by leb key x l).
Proof.
  intros Hyx Hl. destruct l as [|z l]; simpl.
  - constructor; exact Hyx.
  - destruct (leb (key x) (key z)); constructor.
    + exact Hyx.
    + inversion Hl; assumption.
Qed.

Lemma insert_by_sorted (x : A) (l : list A) :
  Sorted (sorted_on leb key) l -> Sorted (sorted_on leb key) (insert_by leb key x l).
Proof.
  induction 1 as [|y l Hs IH Hhd]; simpl.
  - repeat constructor.
  - destruct (leb (key x) (key y)) eqn:Hxy.
    + constructor; [constructor; assumption|].
      constructor; exact Hxy.
    + constructor; [exact IH|].
      apply insert_by_hd; [|exact Hhd].
      unfold sorted_on.
      destruct (leb_total (key x) (key y)) as [H|H]; [congruence|exact H].
Qed.

Lemma order_by_sorted (l : list A) : Sorted (sorted_on leb key) (order_by leb key l).
Proof.
  induction l as [|x l IH]; simpl.
  - constructor.
  - apply insert_by_sorted, IH.
Qed.

End OrderByFacts.

Lemma firstn_sorted {A : Type} (R : A -> A -> Prop) (n : nat) (l : list A) :
  Sorted R l -> Sorted R (firstn n l).
Proof.
  intros Hs. revert n.
  induction Hs as [|x l Hs IH Hhd]; intros [|n]; simpl; try constructor.
  - apply IH.
  - destruct Hhd as [|y l' Hxy]; destruct n; simpl; constructor; exact Hxy.
Qed.

Lemma sql_limit_sorted {A : Type} (R : A -> A -> Prop) (n : Z) (l : list A) :
  Sorted R l -> Sorted R (sql_limit n l).
Proof.
  intros Hs. unfold sql_limit.
  destruct (n <? 0)%Z; [exact Hs | apply firstn_sorted, Hs].
Qed.

(** The rows cut off by [LIMIT]. *)
Lemma sql_limit_prefix {A : Type} (n : Z) (l : list A) :
  exists rest, l = (sql_limit n l ++ rest)%list.
Proof.
  unfold sql_limit. destruct (n <? 0)%Z.
  - exists []. now rewrite app_nil_r.
  - exists (skipn (Z.to_nat n) l). symmetry. apply firstn_skipn.
Qed.

Lemma sql_limit_length {A : Type} (n : Z) (l : list A) :
  (0 <= n)%Z -> length (sql_limit n l) = Nat.min (Z.to_nat n) (length l).
Proof.
  intros Hn. unfold sql_limit.
  destruct (Z.ltb_spec n 0); [lia|]. apply length_firstn.
Qed.

Lemma sql_limit_negative {A : Type} (n : Z) (l : list A) :
  (n < 0)%Z -> sql_limit n l = l.
Proof.
  intros Hn. unfold sql_limit. destruct (Z.ltb_spec n 0); [reflexivity|lia].
Qed.

Lemma bind_int_in_range (n : Z) : in_int64 n -> bind_int n = Ok n.
Proof.
  unfold in_int64, bind_int. intros [Hlo Hhi].
  destruct (Z.leb_spec (- 2 ^ 63) n); [|lia].
  destruct (Z.ltb_spec n (2 ^ 63)); [reflexivity|lia].
Qed.

Lemma Z_leb_total (a b : Z) : (a <=? b)%Z = true \/ (b <=? a)%Z = true.
Proof. destruct (Z.leb_spec a b); [now left|right]. apply Z.leb_le. lia. Qed.

Lemma desc_total (a b : string) : desc a b = true \/ desc b a = true.
Proof. unfold desc. apply String.leb_total. Qed.

Lemma map_snd_combine {A B : Type} (l : list A) (l' : list B) :
  length l = length l' -> map snd (combine l l') = l'.
Proof.
  revert l'. induction l as [|a l IH]; intros [|b l'] Hlen; simpl in *;
    try reflexivity; try discriminate.
  f_equal. apply IH. now injection Hlen.
Qed.

(** The rows that [ORDER BY RANDOM()] produces are the rows of the table in
    another order. *)
Lemma shuffled_perm (rnd : nat -> Z) (db : Store) :
  Permutation db
    (map snd (order_by Z.leb fst (combine (map rnd (seq 0 (length db))) db))).
Proof.
  eapply perm_trans;
    [|apply Permutation_map, order_by_perm].
  rewrite map_snd_combine; [apply Permutation_refl|].
  now rewrite length_map, length_seq.
Qed.

(** ** The vocabulary store *)

Lemma f_memory_update_absent (now word meaning : string) (db : Store) :
  existsb (kata_is (lower word)) db = false ->
  f_memory_update now word meaning db =
    (msg_added word meaning, (db ++ [mkRow word meaning now])%list).
Proof. intros H. unfold f_memory_update. now rewrite H. Qed.

Lemma f_memory_update_present (now word meaning : string) (db : Store) :
  existsb (kata_is (lower word)) db = true ->
  f_memory_update now word meaning db = (msg_exists word, db).
Proof. intros H. unfold f_memory_update. now rewrite H. Qed.

Lemma lower_char_idempotent (c : ascii) : lower_char (lower_char c) = lower_char c.
Proof.
  destruct c as [[] [] [] [] [] [] [] []]; reflexivity.
Qed.

Lemma lower_idempotent (s : string) : lower (lower s) = lower s.
Proof.
  induction s as [|c s IH]; simpl; [reflexivity|].
  now rewrite lower_char_idempotent, IH.
Qed.

(** A word saved in lower case is found again under every spelling of its
    letters' case: the second save is refused and the table is unchanged. *)
Lemma f_memory_update_lowercase_refused
  (now now' word word' meaning meaning' : string) (db : Store) :
  lower word' = lower word ->
  let saved := snd (f_memory_update now (lower word) meaning db) in
  f_memory_update now' word' meaning' saved = (msg_exists word', saved).
Proof.
  intros Hw' saved. apply f_memory_update_present. rewrite Hw'.
  subst saved. unfold f_memory_update. rewrite lower_idempotent.
  destruct (existsb (kata_is (lower word)) db) eqn:He; simpl; [exact He|].
  rewrite existsb_app. simpl. unfold kata_is at 2. simpl.
  rewrite String.eqb_refl. now rewrite orb_true_r.
Qed.

(** A word with a capital letter is not found by the check that follows its
    own insertion: saving it again adds a second row. *)
Lemma f_memory_update_capital_duplicated
  (now now' word meaning : string) (db : Store) :
  lower word <> word ->
  existsb (kata_is (lower word)) db = false ->
  f_memory_update now' word meaning (snd (f_memory_update now word meaning db)) =
    (msg_added word meaning,
     (db ++ [mkRow word meaning now; mkRow word meaning now'])%list).
Proof.
  intros Hcap Habs. rewrite (f_memory_update_absent now _ _ _ Habs). simpl.
  rewrite f_memory_update_absent.
  - now rewrite <- app_assoc.
  - rewrite existsb_app, Habs. simpl. unfold kata_is. simpl.
    rewrite orb_false_r. apply String.eqb_neq. congruence.
Qed.

(** C1 (defect of the code): on an empty table, saving "Inu" twice succeeds
    twice; the second call answers with the success message and the table
    holds two rows for the word, where the claim promises the "already
    exists" message and an unchanged row count. *)
Theorem f_memory_update_same_word_twice :
  let first := f_memory_update Scenario.t0 "Inu" "anjing" [] in
  let second := f_memory_update Scenario.t1 "Inu" "anjing" (snd first) in
  fst second = "Berhasil menambahkan 'Inu' (anjing) ke kosakata Anda" /\
  snd second = [mkRow "Inu" "anjing" Scenario.t0; mkRow "Inu" "anjing" Scenario.t1] /\
  get_vocabulary_count (snd first) = 1 /\
  get_vocabulary_count (snd second) = 2.
Proof. repeat split. Qed.

(** C4 (defect of the code): the row inserted for "Inu" has [kata = "Inu"],
    the word as given; its lower-case form "inu", which the existence check
    looks for, is not what is stored. *)
Theorem f_memory_update_stores_word_as_given :
  f_memory_update Scenario.t0 "Inu" "anjing" [] =
    ("Berhasil menambahkan 'Inu' (anjing) ke kosakata Anda",
     [mkRow "Inu" "anjing" Scenario.t0]) /\
  lower "Inu" = "inu" /\
  map kata (snd (f_memory_update Scenario.t0 "Inu" "anjing" [])) <> [lower "Inu"].
Proof. repeat split. discriminate. Qed.

Lemma delete_vocabulary_kept (word : string) (db : Store) :
  kept word db (snd (delete_vocabulary word db)).
Proof.
  simpl. induction db as [|r db IH]; simpl.
  - constructor.
  - unfold kata_is at 1. destruct (String.eqb_spec (kata r) word) as [He|Hne]; simpl.
    + now apply kept_drop.
    + now apply kept_keep.
Qed.

(** C5: [delete_vocabulary word] removes the rows whose [kata] is exactly
    [word] and no other: what is left is the table without those rows, in
    the same order; a row stays if and only if its key differs from [word];
    in particular every row whose key differs from [word] only in the case
    of its letters stays. *)
Theorem delete_vocabulary_exact_case (word : string) (db : Store) :
  kept word db (snd (delete_vocabulary word db)) /\
  (forall r, In r (snd (delete_vocabulary word db)) <-> In r db /\ kata r <> word) /\
  (forall r, In r db -> kata r <> word -> lower (kata r) = lower word ->
             In r (snd (delete_vocabulary word db))) /\
  fst (delete_vocabulary word db) = "Kata '" ++ word ++ "' berhasil dihapus".
Proof.
  assert (Hin : forall r, In r (snd (delete_vocabulary word db)) <->
                          In r db /\ kata r <> word).
  { intros r. simpl. rewrite filter_In. unfold kata_is.
    destruct (String.eqb_spec (kata r) word); simpl; intuition congruence. }
  split; [apply delete_vocabulary_kept|].
  split; [exact Hin|].
  split; [|reflexivity].
  intros r Hr Hne _. apply Hin. now split.
Qed.

Lemma format_results_cases (results : list Row) :
  (results = [] /\ format_results results = "Database kosong.") \/
  (results <> [] /\
   format_results results =
     "Kosakata acak yang tersimpan:" ++ nl ++
     join nl (map (fun r => "- " ++ kata r ++ " (" ++ arti r ++ ")") results)).
Proof.
  destruct results as [|r results]; [left|right]; split;
    try reflexivity; discriminate.
Qed.

(** C6, as amended: for [0 <= n < 2^63], [f_memory_query] returns the text
    for [min n (number of rows)] entries, which are rows of the table (the
    first ones of a reordering of it): the fixed message "Database kosong."
    when no entry is selected, the heading and one bullet per entry
    otherwise; on an empty table the fixed message is returned.  For
    [-2^63 <= n < 0] the query has no limit and the entries are all the rows
    of the table, in some order (the fixed message on an empty table).  For
    [n] outside the signed 64-bit range the call raises [OverflowError]. *)
Theorem f_memory_query_at_most_n (rnd : nat -> Z) (n : Z) (db : Store) :
  ((0 <= n < 2 ^ 63)%Z ->
   exists entries rest,
     Permutation db (entries ++ rest)%list /\
     length entries = Nat.min (Z.to_nat n) (length db) /\
     (Z.of_nat (length entries) <= n)%Z /\
     ((entries = [] /\ f_memory_query rnd n db = Ok "Database kosong.") \/
      (entries <> [] /\
       f_memory_query rnd n db =
         Ok ("Kosakata acak yang tersimpan:" ++ nl ++
             join nl (map (fun r => "- " ++ kata r ++ " (" ++ arti r ++ ")") entries)))) /\
     (db = [] -> f_memory_query rnd n db = Ok "Database kosong.")) /\
  ((- 2 ^ 63 <= n < 0)%Z ->
   exists entries,
     Permutation db entries /\
     ((entries = [] /\ f_memory_query rnd n db = Ok "Database kosong.") \/
      (entries <> [] /\
       f_memory_query rnd n db =
         Ok ("Kosakata acak yang tersimpan:" ++ nl ++
             join nl (map (fun r => "- " ++ kata r ++ " (" ++ arti r ++ ")") entries)))) /\
     (db = [] -> f_memory_query rnd n db = Ok "Database kosong.")) /\
  ((n < - 2 ^ 63 \/ 2 ^ 63 <= n)%Z ->
   f_memory_query rnd n db =
     Raise (OverflowError "Python int too large to convert to SQLite INTEGER")).
Proof.
  split; [|split].
  - intros Hn. unfold f_memory_query.
    rewrite bind_int_in_range by (unfold in_int64; lia).
    set (entries := select_random rnd n db).
    destruct (sql_limit_prefix n
      (map snd (order_by Z.leb fst (combine (map rnd (seq 0 (length db))) db))))
      as [rest Hrest].
    assert (Hlen : length entries = Nat.min (Z.to_nat n) (length db)).
    { subst entries. unfold select_random. rewrite sql_limit_length by lia.
      f_equal. symmetry. apply Permutation_length, shuffled_perm. }
    exists entries, rest.
    split; [|split; [|split; [|split]]].
    + subst entries. unfold select_random. rewrite <- Hrest. apply shuffled_perm.
    + exact Hlen.
    + rewrite Hlen. lia.
    + destruct (format_results_cases entries) as [[H1 H2]|[H1 H2]]; rewrite H2;
        [left|right]; now split.
    + intros ->. simpl in Hlen. rewrite Nat.min_0_r in Hlen.
      destruct entries; [reflexivity|discriminate].
  - intros Hn. unfold f_memory_query.
    rewrite bind_int_in_range by (unfold in_int64; lia).
    assert (Hperm : Permutation db (select_random rnd n db)).
    { unfold select_random. rewrite sql_limit_negative by lia.
      apply shuffled_perm. }
    exists (select_random rnd n db).
    split; [exact Hperm|]. split.
    + destruct (format_results_cases (select_random rnd n db))
        as [[H1 H2]|[H1 H2]]; rewrite H2; [left|right]; now split.
    + intros ->. apply Permutation_nil in Hperm. now rewrite Hperm.
  - intros Hn. unfold f_memory_query, bind_int.
    destruct (Z.leb_spec (- 2 ^ 63) n); destruct (Z.ltb_spec n (2 ^ 63));
      try reflexivity; lia.
Qed.

Lemma f_memory_query_at_most_n_witness :
  ((0 <= 2 < 2 ^ 63)%Z /\
   exists entries,
     length entries = 2 /\
     f_memory_query Scenario.draws 2 Scenario.three_words =
       Ok (format_results entries)) /\
  ((- 2 ^ 63 <= -1 < 0)%Z /\
   exists entries,
     Permutation Scenario.same_second entries /\
     f_memory_query Scenario.draws (-1) Scenario.same_second =
       Ok (format_results entries)) /\
  ((2 ^ 63 < - 2 ^ 63 \/ 2 ^ 63 <= 2 ^ 63)%Z /\
   f_memory_query Scenario.draws (2 ^ 63) Scenario.same_second =
     Raise (OverflowError "Python int too large to convert to SQLite INTEGER")).
Proof.
  assert (Hn : (0 <= 2 < 2 ^ 63)%Z) by lia.
  assert (Hneg : (- 2 ^ 63 <= -1 < 0)%Z) by lia.
  assert (Hbig : (2 ^ 63 < - 2 ^ 63 \/ 2 ^ 63 <= 2 ^ 63)%Z) by (right; lia).
  split; [|split].
  - split; [exact Hn|].
    destruct (proj1 (f_memory_query_at_most_n Scenario.draws 2
                       Scenario.three_words) Hn)
      as (entries & rest & _ & Hlen & _ & Hout & _).
    exists entries. split; [exact Hlen|].
    destruct Hout as [[He Hout]|[He Hout]]; rewrite Hout.
    + rewrite He. reflexivity.
    + destruct entries; [contradiction|reflexivity].
  - split; [exact Hneg|].
    destruct (proj1 (proj2 (f_memory_query_at_most_n Scenario.draws (-1)
                              Scenario.same_second)) Hneg)
      as (entries & Hperm & Hout & _).
    exists entries. split; [exact Hperm|].
    destruct Hout as [[He Hout]|[He Hout]]; rewrite Hout.
    + rewrite He. reflexivity.
    + destruct entries; [contradiction|reflexivity].
  - split; [exact Hbig|].
    exact (proj2 (proj2 (f_memory_query_at_most_n Scenario.draws (2 ^ 63)
                           Scenario.same_second)) Hbig).
Defined.

(** C6, as stated, fails for a negative [n]: with [rows_query = -1] the
    query has no limit, and on a table of two rows the answer lists both,
    which is not a list of at most [-1] entries. *)
Lemma f_memory_query_negative_n :
  f_memory_query Scenario.draws (-1) Scenario.same_second =
    Ok ("Kosakata acak yang tersimpan:" ++ nl ++
        "- inu (anjing)" ++ nl ++ "- neko (kucing)") /\
  ~ (exists entries : list Row,
       (Z.of_nat (length entries) <= -1)%Z /\
       f_memory_query Scenario.draws (-1) Scenario.same_second =
         Ok (format_results entries)).
Proof.
  split; [reflexivity|].
  intros (entries & Hlen & _). lia.
Qed.

(** A negative [n] in the 64-bit range lists every row of the table. *)
Lemma f_memory_query_no_limit (rnd : nat -> Z) (n : Z) (db : Store) :
  (- 2 ^ 63 <= n < 0)%Z ->
  exists entries,
    Permutation db entries /\
    f_memory_query rnd n db = Ok (format_results entries).
Proof.
  intros Hn. unfold f_memory_query.
  rewrite bind_int_in_range by (unfold in_int64; lia).
  exists (select_random rnd n db). split; [|reflexivity].
  unfold select_random. rewrite sql_limit_negative by lia.
  apply shuffled_perm.
Qed.

(** Outside the 64-bit range the parameter cannot be bound and the call
    raises. *)
Lemma f_memory_query_overflow (rnd : nat -> Z) (n : Z) (db : Store) :
  (2 ^ 63 <= n)%Z ->
  exists e, f_memory_query rnd n db = Raise e.
Proof.
  intros Hn. unfold f_memory_query, bind_int.
  destruct (Z.ltb_spec n (2 ^ 63)); [lia|].
  rewrite andb_false_r. eexists. reflexivity.
Qed.

(** C10: with [rows_query = 0] the answer is "Database kosong." whatever
    the table holds; a table of three rows gives it too, so the message
    does not tell that the table is empty. *)
Theorem f_memory_query_zero_rows :
  (forall (rnd : nat -> Z) (db : Store),
     f_memory_query rnd 0 db = Ok "Database kosong.") /\
  get_vocabulary_count Scenario.three_words = 3 /\
  f_memory_query Scenario.draws 0 Scenario.three_words = Ok "Database kosong.".
Proof.
  split; [|split; reflexivity].
  intros rnd db. unfold f_memory_query.
  rewrite bind_int_in_range by (unfold in_int64; lia).
  reflexivity.
Qed.

(** C7, as amended: for a limit that SQLite accepts, the rows returned by
    [get_recent_vocabulary] are in descending order of [inserted_at] with
    ties allowed; they are the first rows of the whole table put in that
    order, [min limit (number of rows)] of them when the limit is not
    negative. *)
Theorem get_recent_vocabulary_descending (limit : Z) (db : Store) :
  in_int64 limit ->
  exists rows rest,
    get_recent_vocabulary limit db = Ok rows /\
    Sorted newer_or_same rows /\
    Permutation db (rows ++ rest)%list /\
    Sorted newer_or_same (rows ++ rest)%list /\
    ((0 <= limit)%Z -> length rows = Nat.min (Z.to_nat limit) (length db)).
Proof.
  intros Hlimit. unfold get_recent_vocabulary.
  rewrite (bind_int_in_range _ Hlimit).
  assert (Hsorted : Sorted newer_or_same (order_by desc inserted_at db)).
  { change newer_or_same with (sorted_on desc (@inserted_at)).
    apply order_by_sorted, desc_total. }
  destruct (sql_limit_prefix limit (order_by desc inserted_at db)) as [rest Hrest].
  exists (sql_limit limit (order_by desc inserted_at db)), rest.
  split; [reflexivity|].
  split; [apply sql_limit_sorted, Hsorted|].
  rewrite <- Hrest.
  split; [apply order_by_perm|].
  split; [exact Hsorted|].
  intros Hpos. rewrite sql_limit_length by exact Hpos.
  f_equal. symmetry. apply Permutation_length, order_by_perm.
Qed.

Lemma get_recent_vocabulary_descending_witness :
  in_int64 2 /\
  exists rows,
    get_recent_vocabulary 2 Scenario.three_words = Ok rows /\
    Sorted newer_or_same rows /\ length rows = 2.
Proof.
  assert (Hlimit : in_int64 2) by (unfold in_int64; lia).
  split; [exact Hlimit|].
  destruct (get_recent_vocabulary_descending 2 Scenario.three_words Hlimit)
    as (rows & rest & Hrows & Hsorted & _ & _ & Hlen).
  exists rows. split; [exact Hrows|]. split; [exact Hsorted|].
  apply Hlen. lia.
Defined.

(** C7, as stated, fails: two words saved within the same second carry the
    same [inserted_at]; both are returned, so the output is not strictly
    descending, in whichever order the two come, and here the word saved
    last is not the first. *)
Lemma get_recent_vocabulary_same_second :
  get_recent_vocabulary 10 Scenario.same_second =
    Ok [mkRow "inu" "anjing" Scenario.t0; mkRow "neko" "kucing" Scenario.t0] /\
  ~ Sorted strictly_newer
      [mkRow "inu" "anjing" Scenario.t0; mkRow "neko" "kucing" Scenario.t0] /\
  ~ Sorted strictly_newer
      [mkRow "neko" "kucing" Scenario.t0; mkRow "inu" "anjing" Scenario.t0].
Proof.
  split; [reflexivity|].
  split; intros Hs; inversion Hs as [|r l _ Hhd]; subst;
    inversion Hhd as [|r' l' Hlt]; subst;
    vm_compute in Hlt; discriminate.
Qed.

(** ** The tool-dispatch loop *)

Section DispatchFacts.
Variable env : Env.

(** No tool touches the conversation history. *)
Lemma dispatch_messages (call : ToolCall) (w : World) :
  messages (fst (dispatch env call w)) = messages w.
Proof.
  unfold dispatch.
  destruct (String.eqb (call_name call) "f_memory_update").
  { unfold invoke_f_memory_update.
    destruct (dict_get "word" (call_args call)) as [[word| |]|]; try reflexivity.
    destruct (dict_get "meaning" (call_args call)) as [[meaning| |]|]; try reflexivity.
    unfold bind, consult, on_memory. simpl.
    destruct (f_memory_update _ word meaning (memory w)); reflexivity. }
  destruct (String.eqb (call_name call) "f_memory_query").
  { unfold invoke_f_memory_query, query_memory, bind, get_memory, consult.
    destruct (dict_get "rows_query" (call_args call)) as [[s|n|]|]; reflexivity. }
  destruct (String.eqb (call_name call) "f_lookup_dictionary"); [|reflexivity].
  unfold invoke_f_lookup_dictionary, f_lookup_dictionary.
  destruct (dict_get "question" (call_args call)) as [[question| |]|]; try reflexivity.
  destruct (vector_db env) as [search|]; [|reflexivity].
  unfold bind, consult. simpl.
  destruct (search (tick w) question); reflexivity.
Qed.

(** One iteration never raises: it records the tool's result, or the text
    of the exception, under the call's id. *)
Lemma run_call_eq (call : ToolCall) (w : World) :
  run_call env call w =
    (fst (dispatch env call w),
     Ok (ToolMessage (result_text (call_name call) (snd (dispatch env call w)))
                     (call_id call))).
Proof.
  unfold run_call, try_except, bind, ret.
  destruct (dispatch env call w) as [w' [result_|e]]; reflexivity.
Qed.

Lemma run_tool_calls_cons (call : ToolCall) (calls : list ToolCall) (w : World) :
  run_tool_calls env (call :: calls) w =
    match run_tool_calls env calls (fst (dispatch env call w)) with
    | (w', Ok msgs) =>
        (w', Ok (ToolMessage (result_text (call_name call) (snd (dispatch env call w)))
                             (call_id call) :: msgs))
    | (w', Raise e) => (w', Raise e)
    end.
Proof.
  simpl. unfold bind at 1. rewrite run_call_eq. unfold bind, ret.
  destruct (run_tool_calls env calls (fst (dispatch env call w))) as [w' [msgs|e]];
    reflexivity.
Qed.

(** The loop never raises: it yields one tool-result message per call, in
    the order of the calls, each under its call's id, and leaves the
    history as it was. *)
Lemma run_tool_calls_ok (calls : list ToolCall) (w : World) :
  exists w' msgs,
    run_tool_calls env calls w = (w', Ok msgs) /\
    messages w' = messages w /\
    Forall2 answers calls msgs.
Proof.
  revert w. induction calls as [|call calls IH]; intros w.
  - exists w, []. repeat split. constructor.
  - destruct (IH (fst (dispatch env call w))) as (w' & msgs & Hrun & Hmsgs & Hans).
    rewrite run_tool_calls_cons, Hrun.
    eexists _, _. split; [reflexivity|]. split.
    + rewrite Hmsgs. apply dispatch_messages.
    + constructor; [|exact Hans]. eexists. reflexivity.
Qed.

(** The loop over [pre ++ post] is the loop over [pre] followed by the loop
    over [post] in the world that [pre] left. *)
Lemma run_tool_calls_app (pre post : list ToolCall) :
  forall w w1 msgs_pre w2 msgs_post,
    run_tool_calls env pre w = (w1, Ok msgs_pre) ->
    run_tool_calls env post w1 = (w2, Ok msgs_post) ->
    run_tool_calls env (pre ++ post) w = (w2, Ok (msgs_pre ++ msgs_post)%list).
Proof.
  induction pre as [|call pre IH]; intros w w1 msgs_pre w2 msgs_post Hpre Hpost.
  - simpl in Hpre. unfold ret in Hpre. injection Hpre as <- <-. exact Hpost.
  - rewrite run_tool_calls_cons in Hpre.
    destruct (run_tool_calls env pre (fst (dispatch env call w)))
      as [w' [msgs|e]] eqn:Hrun; [|discriminate].
    injection Hpre as <- <-.
    change ((call :: pre) ++ post)%list with (call :: (pre ++ post))%list.
    rewrite run_tool_calls_cons.
    rewrite (IH _ _ _ _ _ Hrun Hpost). reflexivity.
Qed.

Lemma Forall2_answers_length (calls : list ToolCall) (msgs : list Message) :
  Forall2 answers calls msgs -> length msgs = length calls.
Proof. intros H. symmetry. eapply Forall2_length, H. Qed.

Lemma answers_not_system (calls : list ToolCall) (msgs : list Message) :
  Forall2 answers calls msgs -> Forall (fun m => is_system m = false) msgs.
Proof.
  induction 1 as [|call m calls msgs [content ->] _ IH]; constructor;
    [reflexivity|exact IH].
Qed.

End DispatchFacts.

(** C3: when the execution of one call of the turn raises [e], the loop
    goes on: the calls before it were executed, the failed call gets the
    tool-result message "Error saat menjalankan tool <name>: <e>" under its
    own id, and the calls after it are executed in the world the failed
    call left; the loop itself ends normally with all the messages. *)
Theorem tool_exception_caught (env : Env) (pre post : list ToolCall)
  (call : ToolCall) (w w1 w2 : World) (msgs_pre : list Message) (e : Exception) :
  run_tool_calls env pre w = (w1, Ok msgs_pre) ->
  dispatch env call w1 = (w2, Raise e) ->
  exists w3 msgs_post,
    run_tool_calls env post w2 = (w3, Ok msgs_post) /\
    Forall2 answers post msgs_post /\
    run_tool_calls env (pre ++ call :: post) w =
      (w3, Ok (msgs_pre ++
               ToolMessage ("Error saat menjalankan tool " ++ call_name call ++ ": "
                            ++ str_of_exception e) (call_id call)
               :: msgs_post)%list).
Proof.
  intros Hpre Hcall.
  destruct (run_tool_calls_ok env post w2) as (w3 & msgs_post & Hpost & _ & Hans).
  exists w3, msgs_post. split; [exact Hpost|]. split; [exact Hans|].
  apply (run_tool_calls_app env pre (call :: post) w w1); [exact Hpre|].
  rewrite run_tool_calls_cons, Hcall. simpl. rewrite Hpost. reflexivity.
Qed.

Lemma tool_exception_caught_witness :
  run_tool_calls Scenario.env [Scenario.update_call] Scenario.opened =
    (mkWorld [mkRow "inu" "anjing" Scenario.t0] (messages Scenario.opened) 1,
     Ok [ToolMessage "Berhasil menambahkan 'inu' (anjing) ke kosakata Anda" "call_1"]) /\
  dispatch Scenario.env Scenario.lookup_call
    (mkWorld [mkRow "inu" "anjing" Scenario.t0] (messages Scenario.opened) 1) =
    (mkWorld [mkRow "inu" "anjing" Scenario.t0] (messages Scenario.opened) 1,
     Raise (AttributeError "'NoneType' object has no attribute 'similarity_search'")) /\
  snd (run_tool_calls Scenario.env
         [Scenario.update_call; Scenario.lookup_call;
          Scenario.unknown_call; Scenario.query_call] Scenario.opened) =
    Ok [ToolMessage "Berhasil menambahkan 'inu' (anjing) ke kosakata Anda" "call_1";
        ToolMessage
          "Error saat menjalankan tool f_lookup_dictionary: 'NoneType' object has no attribute 'similarity_search'"
          "call_2";
        ToolMessage "Tool tidak dikenal: f_translate" "call_3";
        ToolMessage ("Kosakata acak yang tersimpan:" ++ nl ++ "- inu (anjing)") "call_4"].
Proof.
  assert (Hpre : run_tool_calls Scenario.env [Scenario.update_call] Scenario.opened =
    (mkWorld [mkRow "inu" "anjing" Scenario.t0] (messages Scenario.opened) 1,
     Ok [ToolMessage "Berhasil menambahkan 'inu' (anjing) ke kosakata Anda" "call_1"]))
    by reflexivity.
  assert (Hcall : dispatch Scenario.env Scenario.lookup_call
    (mkWorld [mkRow "inu" "anjing" Scenario.t0] (messages Scenario.opened) 1) =
    (mkWorld [mkRow "inu" "anjing" Scenario.t0] (messages Scenario.opened) 1,
     Raise (AttributeError "'NoneType' object has no attribute 'similarity_search'")))
    by reflexivity.
  split; [exact Hpre|]. split; [exact Hcall|].
  destruct (tool_exception_caught Scenario.env [Scenario.update_call]
              [Scenario.unknown_call; Scenario.query_call] Scenario.lookup_call
              _ _ _ _ _ Hpre Hcall) as (w3 & msgs_post & Hpost & _ & Hall).
  vm_compute in Hpost. injection Hpost as <- <-.
  simpl app in Hall. rewrite Hall. reflexivity.
Defined.

(** C8: a call whose name is none of the three tool names gets the
    tool-result message "Tool tidak dikenal: <name>" under its own id; its
    execution changes nothing and does not raise, and the loop goes on with
    the calls after it. *)
Theorem unknown_tool_recorded (env : Env) (pre post : list ToolCall)
  (call : ToolCall) (w w1 : World) (msgs_pre : list Message) :
  call_name call <> "f_memory_update" ->
  call_name call <> "f_memory_query" ->
  call_name call <> "f_lookup_dictionary" ->
  run_tool_calls env pre w = (w1, Ok msgs_pre) ->
  dispatch env call w1 = (w1, Ok ("Tool tidak dikenal: " ++ call_name call)) /\
  exists w3 msgs_post,
    run_tool_calls env post w1 = (w3, Ok msgs_post) /\
    Forall2 answers post msgs_post /\
    run_tool_calls env (pre ++ call :: post) w =
      (w3, Ok (msgs_pre ++
               ToolMessage ("Tool tidak dikenal: " ++ call_name call) (call_id call)
               :: msgs_post)%list).
Proof.
  intros Hu Hq Hl Hpre.
  assert (Hcall : dispatch env call w1 =
                  (w1, Ok ("Tool tidak dikenal: " ++ call_name call))).
  { unfold dispatch.
    apply String.eqb_neq in Hu, Hq, Hl. rewrite Hu, Hq, Hl. reflexivity. }
  split; [exact Hcall|].
  destruct (run_tool_calls_ok env post w1) as (w3 & msgs_post & Hpost & _ & Hans).
  exists w3, msgs_post. split; [exact Hpost|]. split; [exact Hans|].
  apply (run_tool_calls_app env pre (call :: post) w w1); [exact Hpre|].
  rewrite run_tool_calls_cons, Hcall. simpl. rewrite Hpost. reflexivity.
Qed.

Lemma unknown_tool_recorded_witness :
  call_name Scenario.unknown_call <> "f_memory_update" /\
  call_name Scenario.unknown_call <> "f_memory_query" /\
  call_name Scenario.unknown_call <> "f_lookup_dictionary" /\
  run_tool_calls Scenario.env
    [Scenario.update_call; Scenario.unknown_call; Scenario.query_call]
    Scenario.opened =
    (mkWorld [mkRow "inu" "anjing" Scenario.t0] (messages Scenario.opened) 2,
     Ok [ToolMessage "Berhasil menambahkan 'inu' (anjing) ke kosakata Anda" "call_1";
         ToolMessage "Tool tidak dikenal: f_translate" "call_3";
         ToolMessage ("Kosakata acak yang tersimpan:" ++ nl ++ "- inu (anjing)") "call_4"]).
Proof.
  assert (Hu : call_name Scenario.unknown_call <> "f_memory_update") by discriminate.
  assert (Hq : call_name Scenario.unknown_call <> "f_memory_query") by discriminate.
  assert (Hl : call_name Scenario.unknown_call <> "f_lookup_dictionary") by discriminate.
  assert (Hpre : run_tool_calls Scenario.env [Scenario.update_call] Scenario.opened =
    (mkWorld [mkRow "inu" "anjing" Scenario.t0] (messages Scenario.opened) 1,
     Ok [ToolMessage "Berhasil menambahkan 'inu' (anjing) ke kosakata Anda" "call_1"]))
    by reflexivity.
  split; [exact Hu|]. split; [exact Hq|]. split; [exact Hl|].
  destruct (unknown_tool_recorded Scenario.env [Scenario.update_call]
              [Scenario.query_call] Scenario.unknown_call _ _ _ Hu Hq Hl Hpre)
    as (_ & w3 & msgs_post & Hpost & _ & Hall).
  vm_compute in Hpost. injection Hpost as <- <-.
  simpl app in Hall. rewrite Hall. reflexivity.
Defined.

(** ** A chat turn *)

Lemma bind_ok {A B : Type} (m : M A) (k : A -> M B) (w w' : World) (a : A) :
  m w = (w', Ok a) -> bind m k w = k a w'.
Proof. intros H. unfold bind. now rewrite H. Qed.

Lemma bind_raise {A B : Type} (m : M A) (k : A -> M B) (w w' : World)
  (e : Exception) :
  m w = (w', Raise e) -> bind m k w = (w', Raise e).
Proof. intros H. unfold bind. now rewrite H. Qed.

(** C2, as amended: in a turn whose first model response holds [N >= 1]
    tool calls, the loop yields [N] tool-result messages, one per call in the
    order of the calls and under the call's id, and they are appended to the
    history after the user's message and the model's response.  When the
    second consultation of the model returns, its response is appended after
    them as the one final message; when it raises, the turn ends with that
    exception and the history ends with the tool results. *)
Theorem chat_turn_with_tool_calls (env : Env) (w : World)
  (history : list Message) (prompt : string) (ai : AIMsg) :
  messages w = Some history ->
  llm_with_tools env (tick w) (history ++ [HumanMessage prompt])%list = Ok ai ->
  ai_tool_calls ai <> [] ->
  exists w_tools tool_results,
    run_tool_calls env (ai_tool_calls ai)
      (mkWorld (memory w)
               (Some (history ++ [HumanMessage prompt; AIMessage ai])%list)
               (S (tick w))) = (w_tools, Ok tool_results) /\
    Forall2 answers (ai_tool_calls ai) tool_results /\
    length tool_results = length (ai_tool_calls ai) /\
    let appended :=
      (history ++ [HumanMessage prompt; AIMessage ai] ++ tool_results)%list in
    match llm_with_tools env (tick w_tools) appended with
    | Ok final_response =>
        handle_chat_input env prompt w =
          (mkWorld (memory w_tools)
                   (Some (appended ++ [AIMessage final_response])%list)
                   (S (tick w_tools)),
           Ok (ai_content final_response))
    | Raise e =>
        handle_chat_input env prompt w =
          (mkWorld (memory w_tools) (Some appended) (S (tick w_tools)), Raise e)
    end.
Proof.
  intros Hhist Hmodel Hcalls.
  destruct (run_tool_calls_ok env (ai_tool_calls ai)
              (mkWorld (memory w)
                 (Some (history ++ [HumanMessage prompt; AIMessage ai])%list)
                 (S (tick w)))) as (w_tools & tool_results & Hrun & Hsame & Hans).
  simpl in Hsame.
  exists w_tools, tool_results.
  split; [exact Hrun|]. split; [exact Hans|].
  split; [apply Forall2_answers_length, Hans|].
  cbv zeta.
  set (base := (history ++ [HumanMessage prompt; AIMessage ai])%list) in *.
  assert (H1 : append_message (HumanMessage prompt) w =
               (mkWorld (memory w) (Some (history ++ [HumanMessage prompt])%list)
                        (tick w), Ok tt)).
  { unfold append_message, extend_messages. now rewrite Hhist. }
  assert (H2 : invoke_llm_with_tools env
                 (mkWorld (memory w) (Some (history ++ [HumanMessage prompt])%list)
                          (tick w)) =
               (mkWorld (memory w) (Some (history ++ [HumanMessage prompt])%list)
                        (S (tick w)), Ok ai)).
  { unfold invoke_llm_with_tools, consult. simpl. now rewrite Hmodel. }
  assert (H3 : append_message (AIMessage ai)
                 (mkWorld (memory w) (Some (history ++ [HumanMessage prompt])%list)
                          (S (tick w))) =
               (mkWorld (memory w) (Some base) (S (tick w)), Ok tt)).
  { unfold append_message, extend_messages, base. simpl.
    now rewrite <- app_assoc. }
  assert (H5 : extend_messages tool_results w_tools =
               (mkWorld (memory w_tools) (Some (base ++ tool_results)%list)
                        (tick w_tools), Ok tt)).
  { unfold extend_messages. now rewrite Hsame. }
  assert (Happ : (history ++ [HumanMessage prompt; AIMessage ai] ++ tool_results)%list
                 = (base ++ tool_results)%list).
  { unfold base. now rewrite <- app_assoc. }
  rewrite Happ.
  unfold handle_chat_input.
  rewrite (bind_ok _ _ _ _ _ H1), (bind_ok _ _ _ _ _ H2), (bind_ok _ _ _ _ _ H3).
  destruct (ai_tool_calls ai) as [|call calls] eqn:Hlist; [contradiction|].
  rewrite (bind_ok _ _ _ _ _ Hrun), (bind_ok _ _ _ _ _ H5).
  destruct (llm_with_tools env (tick w_tools) (base ++ tool_results)%list)
    as [final_response|e] eqn:Hfinal.
  - erewrite bind_ok;
      [|unfold invoke_llm_with_tools, consult; simpl; rewrite Hfinal; reflexivity].
    reflexivity.
  - erewrite bind_raise;
      [|unfold invoke_llm_with_tools, consult; simpl; rewrite Hfinal; reflexivity].
    reflexivity.
Qed.

Lemma chat_turn_with_tool_calls_witness :
  messages Scenario.opened =
    Some [SystemMessage "You are LexiAI."; AIMessage (mkAI GREETING [])] /\
  ai_tool_calls (mkAI "" [Scenario.update_call; Scenario.lookup_call;
                          Scenario.unknown_call; Scenario.query_call]) <> [] /\
  exists tool_results final_response w',
    length tool_results = 4 /\
    map (fun m => match m with ToolMessage _ i => i | _ => "" end) tool_results =
      ["call_1"; "call_2"; "call_3"; "call_4"] /\
    handle_chat_input Scenario.env "Tambahkan kata inu sebagai anjing" Scenario.opened =
      (w', Ok (ai_content final_response)) /\
    messages w' =
      Some ([SystemMessage "You are LexiAI."; AIMessage (mkAI GREETING []);
             HumanMessage "Tambahkan kata inu sebagai anjing";
             AIMessage (mkAI "" [Scenario.update_call; Scenario.lookup_call;
                                 Scenario.unknown_call; Scenario.query_call])]
            ++ tool_results ++ [AIMessage final_response])%list.
Proof.
  assert (Hhist : messages Scenario.opened =
    Some [SystemMessage "You are LexiAI."; AIMessage (mkAI GREETING [])])
    by reflexivity.
  assert (Hcalls : ai_tool_calls
    (mkAI "" [Scenario.update_call; Scenario.lookup_call;
              Scenario.unknown_call; Scenario.query_call]) <> []) by discriminate.
  split; [exact Hhist|]. split; [exact Hcalls|].
  destruct (chat_turn_with_tool_calls Scenario.env Scenario.opened _
              "Tambahkan kata inu sebagai anjing" _ Hhist eq_refl Hcalls)
    as (w_tools & tool_results & Hrun & _ & Hlen & Hturn).
  vm_compute in Hrun. injection Hrun as <- <-.
  cbv zeta in Hturn.
  exists [ToolMessage "Berhasil menambahkan 'inu' (anjing) ke kosakata Anda" "call_1";
          ToolMessage
            "Error saat menjalankan tool f_lookup_dictionary: 'NoneType' object has no attribute 'similarity_search'"
            "call_2";
          ToolMessage "Tool tidak dikenal: f_translate" "call_3";
          ToolMessage ("Kosakata acak yang tersimpan:" ++ nl ++ "- inu (anjing)") "call_4"],
         (mkAI "Kata inu sudah saya tambahkan." []).
  eexists. split; [reflexivity|]. split; [reflexivity|].
  split; [exact Hturn|]. reflexivity.
Defined.

(** C2, as stated, fails when the model service raises on its second
    consultation: the turn ends with the exception, and the history ends
    with the tool result, no final assistant message after it. *)
Lemma chat_turn_without_final_message :
  handle_chat_input Scenario.failing_env "Tambahkan kata inu sebagai anjing"
    Scenario.opened =
    (mkWorld [mkRow "inu" "anjing" Scenario.t0]
       (Some [SystemMessage "You are LexiAI."; AIMessage (mkAI GREETING []);
              HumanMessage "Tambahkan kata inu sebagai anjing";
              AIMessage (mkAI "" [Scenario.update_call]);
              ToolMessage "Berhasil menambahkan 'inu' (anjing) ke kosakata Anda"
                          "call_1"])
       3,
     Raise (ServiceError "429 Resource has been exhausted")) /\
  ~ (exists tool_results final_response,
       Forall2 answers [Scenario.update_call] tool_results /\
       messages (fst (handle_chat_input Scenario.failing_env
                        "Tambahkan kata inu sebagai anjing" Scenario.opened)) =
         Some ([SystemMessage "You are LexiAI."; AIMessage (mkAI GREETING []);
                HumanMessage "Tambahkan kata inu sebagai anjing";
                AIMessage (mkAI "" [Scenario.update_call])]
               ++ tool_results ++ [AIMessage final_response])%list).
Proof.
  split; [reflexivity|].
  intros (tool_results & final_response & Hans & Hhist).
  apply Forall2_length in Hans.
  destruct tool_results as [|m [|m' tool_results]]; try discriminate Hans.
  simpl in Hhist. discriminate Hhist.
Qed.

(** X10: a turn whose model response holds no tool call appends the
    user's message and that response, nothing else, renders the response
    and leaves the table as it was. *)
Lemma chat_turn_without_tool_calls (env : Env) (w : World)
  (history : list Message) (prompt : string) (ai : AIMsg) :
  messages w = Some history ->
  llm_with_tools env (tick w) (history ++ [HumanMessage prompt])%list = Ok ai ->
  ai_tool_calls ai = [] ->
  handle_chat_input env prompt w =
    (mkWorld (memory w)
             (Some (history ++ [HumanMessage prompt; AIMessage ai])%list)
             (S (tick w)),
     Ok (ai_content ai)).
Proof.
  intros Hhist Hmodel Hcalls. unfold handle_chat_input.
  erewrite bind_ok;
    [|unfold append_message, extend_messages; rewrite Hhist; reflexivity].
  erewrite bind_ok;
    [|unfold invoke_llm_with_tools, consult; simpl; rewrite Hmodel; reflexivity].
  erewrite bind_ok;
    [|unfold append_message, extend_messages; simpl; reflexivity].
  rewrite Hcalls, <- app_assoc. reflexivity.
Qed.

(** The turn "Tambahkan kata inu sebagai anjing" on an empty table: the
    model asks for [f_memory_update(word="inu", meaning="anjing")] and the
    table gains the row. *)
Example chat_turn_adds_inu :
  memory (fst (handle_chat_input Scenario.env
                 "Tambahkan kata inu sebagai anjing" Scenario.opened)) =
    [mkRow "inu" "anjing" Scenario.t0].
Proof. reflexivity. Qed.

(** ** The conversation history *)

Section HistoryFacts.
Variable env : Env.

Lemma grows_refl (h : option (list Message)) : grows env h h.
Proof.
  destruct h as [history|]; simpl.
  - exists []. split; [now rewrite app_nil_r|constructor].
  - now left.
Qed.

Lemma one_system_first_app (history added : list Message) :
  one_system_first env history ->
  Forall (fun m => is_system m = false) added ->
  one_system_first env (history ++ added).
Proof.
  intros (rest & -> & Hrest) Hadded.
  exists (rest ++ added)%list. split; [reflexivity|].
  apply Forall_app. now split.
Qed.

Lemma grows_trans (h1 h2 h3 : option (list Message)) :
  grows env h1 h2 -> grows env h2 h3 -> grows env h1 h3.
Proof.
  destruct h1 as [history|]; simpl.
  - intros (added & -> & Hadded). simpl.
    intros (added' & -> & Hadded').
    exists (added ++ added')%list. split; [now rewrite app_assoc|].
    apply Forall_app. now split.
  - intros [->|(history & -> & Hone)]; simpl; [tauto|].
    intros (added & -> & Hadded). right.
    eexists. split; [reflexivity|]. now apply one_system_first_app.
Qed.

Lemma appends_only_same {A : Type} (m : M A) :
  (forall w, messages (fst (m w)) = messages w) -> appends_only env m.
Proof. intros H w. rewrite H. apply grows_refl. Qed.

Lemma appends_only_bind {A B : Type} (P : A -> Prop) (m : M A) (k : A -> M B) :
  appends_only env m -> returns P m ->
  (forall a, P a -> appends_only env (k a)) ->
  appends_only env (bind m k).
Proof.
  intros Hm HP Hk w. unfold bind.
  specialize (Hm w). specialize (HP w).
  destruct (m w) as [w' [a|e]]; simpl in *; [|exact Hm].
  eapply grows_trans; [exact Hm|]. apply Hk, HP. reflexivity.
Qed.

Lemma appends_only_seq {A B : Type} (m : M A) (k : A -> M B) :
  appends_only env m -> (forall a, appends_only env (k a)) ->
  appends_only env (bind m k).
Proof.
  intros Hm Hk. apply (appends_only_bind (fun _ => True)); auto.
  intros w a _. exact I.
Qed.

Lemma appends_only_ret {A : Type} (a : A) : appends_only env (ret a).
Proof. now apply appends_only_same. Qed.

Lemma appends_only_consult {A : Type} (oracle : nat -> result A) :
  appends_only env (consult oracle).
Proof. now apply appends_only_same. Qed.

Lemma appends_only_on_memory {A : Type} (op : Store -> A * Store) :
  appends_only env (on_memory op).
Proof.
  apply appends_only_same. intros w. unfold on_memory.
  now destruct (op (memory w)).
Qed.

Lemma appends_only_extend (msgs : list Message) :
  Forall (fun m => is_system m = false) msgs ->
  appends_only env (extend_messages msgs).
Proof.
  intros Hmsgs w. unfold extend_messages.
  destruct (messages w) as [history|] eqn:Hw; simpl.
  - exists msgs. now split.
  - rewrite Hw. now left.
Qed.

Lemma appends_only_append (m : Message) :
  is_system m = false -> appends_only env (append_message m).
Proof. intros Hm. apply appends_only_extend. now constructor. Qed.

Lemma appends_only_init : appends_only env (init_messages env).
Proof.
  intros w. unfold init_messages.
  destruct (messages w) as [history|] eqn:Hw; simpl.
  - rewrite Hw. exists []. split; [now rewrite app_nil_r|constructor].
  - right. eexists. split; [reflexivity|].
    eexists. split; [reflexivity|]. now repeat constructor.
Qed.

Lemma appends_only_model : appends_only env (invoke_llm_with_tools env).
Proof.
  apply appends_only_same. intros w. unfold invoke_llm_with_tools.
  destruct (messages w) eqn:Hw; simpl; exact Hw.
Qed.

Lemma appends_only_run_tool_calls (calls : list ToolCall) :
  appends_only env (run_tool_calls env calls).
Proof.
  apply appends_only_same. intros w.
  destruct (run_tool_calls_ok env calls w) as (w' & msgs & Hrun & Hsame & _).
  now rewrite Hrun.
Qed.

Lemma run_tool_calls_returns (calls : list ToolCall) :
  returns (Forall (fun m => is_system m = false)) (run_tool_calls env calls).
Proof.
  intros w msgs Hw.
  destruct (run_tool_calls_ok env calls w) as (w' & msgs' & Hrun & _ & Hans).
  rewrite Hrun in Hw. simpl in Hw. injection Hw as <-.
  eapply answers_not_system, Hans.
Qed.

Lemma appends_only_query (args : Dict) :
  appends_only env (invoke_f_memory_query env args).
Proof.
  apply appends_only_same. intros w.
  unfold invoke_f_memory_query, query_memory, bind, get_memory, consult.
  destruct (dict_get "rows_query" args) as [[s|n|]|]; reflexivity.
Qed.

Lemma appends_only_update (args : Dict) :
  appends_only env (invoke_f_memory_update env args).
Proof.
  apply appends_only_same. intros w.
  apply (dispatch_messages env (mkCall "f_memory_update" args "") w).
Qed.

Lemma appends_only_chat (prompt : string) :
  appends_only env (handle_chat_input env prompt).
Proof.
  unfold handle_chat_input.
  apply appends_only_seq; [now apply appends_only_append|intros _].
  apply appends_only_seq; [apply appends_only_model|intros ai_msg].
  apply appends_only_seq; [now apply appends_only_append|intros _].
  destruct (ai_tool_calls ai_msg) as [|call calls]; [apply appends_only_ret|].
  eapply appends_only_bind;
    [apply appends_only_run_tool_calls|apply run_tool_calls_returns|].
  intros tool_results Hresults.
  apply appends_only_seq; [now apply appends_only_extend|intros _].
  apply appends_only_seq; [apply appends_only_model|intros final_response].
  apply appends_only_seq; [now apply appends_only_append|intros _].
  apply appends_only_ret.
Qed.

Lemma appends_only_random : appends_only env (handle_random_vocabulary env).
Proof.
  unfold handle_random_vocabulary.
  apply appends_only_seq; [apply appends_only_query|intros result_].
  apply appends_only_seq; [apply appends_only_init|intros _].
  apply appends_only_seq; [now apply appends_only_append|intros _].
  now apply appends_only_append.
Qed.

Lemma appends_only_script (ev : Event) : appends_only env (script_run env ev).
Proof.
  destruct ev as [word_input meaning_input|word_to_delete| | |prompt]; simpl.
  - apply appends_only_seq; [|intros _; apply appends_only_init].
    destruct (negb (is_empty word_input) && negb (is_empty meaning_input));
      [|apply appends_only_ret].
    apply appends_only_seq; [apply appends_only_update|intros _].
    apply appends_only_ret.
  - apply appends_only_seq; [apply appends_only_on_memory|intros _].
    apply appends_only_init.
  - apply appends_only_seq; [apply appends_only_random|intros _].
    apply appends_only_init.
  - apply appends_only_init.
  - apply appends_only_seq; [apply appends_only_init|intros _].
    destruct (is_empty prompt); [apply appends_only_ret|].
    apply appends_only_seq; [apply appends_only_chat|intros _].
    apply appends_only_ret.
Qed.

(** What [grows] keeps. *)
Lemma grows_keeps (before after : option (list Message)) :
  grows env before after ->
  (forall h, before = Some h -> one_system_first env h) ->
  forall h, after = Some h -> one_system_first env h.
Proof.
  intros Hgrows Hbefore h Hafter.
  destruct before as [history|]; simpl in Hgrows.
  - destruct Hgrows as (added & Heq & Hadded).
    rewrite Heq in Hafter. injection Hafter as <-.
    apply one_system_first_app; [now apply Hbefore|exact Hadded].
  - destruct Hgrows as [Heq|(history & Heq & Hone)]; rewrite Heq in Hafter.
    + discriminate.
    + now injection Hafter as <-.
Qed.

Lemma reachable_one_system (w : World) :
  reachable env w -> forall h, messages w = Some h -> one_system_first env h.
Proof.
  induction 1 as [db t|w ev Hw IH]; intros h Hh.
  - discriminate.
  - eapply grows_keeps; [apply (appends_only_script ev w)|exact IH|exact Hh].
Qed.

End HistoryFacts.

(** C9: every history reached by runs of the script begins with the system
    prompt and holds no other system message.  A session without history
    gets the two initial messages, the system prompt first; a chat turn and
    the random-vocabulary shortcut append to an existing history, and none
    of the appended messages is a system message, whether the turn ends
    normally or by an exception; the shortcut on a session without history
    creates the initial messages before it appends its two. *)
Theorem history_begins_with_one_system_message (env : Env) (w : World) :
  reachable env w ->
  (forall h, messages w = Some h -> one_system_first env h) /\
  (messages w = None ->
   messages (fst (init_messages env w)) =
     Some [SystemMessage (SYSTEM_PROMPT env); AIMessage (mkAI GREETING [])]) /\
  (forall prompt h, messages w = Some h ->
     exists added,
       messages (fst (handle_chat_input env prompt w)) = Some (h ++ added)%list /\
       Forall (fun m => is_system m = false) added) /\
  (forall h, messages w = Some h ->
     exists added,
       messages (fst (handle_random_vocabulary env w)) = Some (h ++ added)%list /\
       Forall (fun m => is_system m = false) added) /\
  (messages w = None ->
   exists answer,
     messages (fst (handle_random_vocabulary env w)) =
       Some [SystemMessage (SYSTEM_PROMPT env); AIMessage (mkAI GREETING []);
             HumanMessage "Tampilkan 5 kosakata acak yang sudah saya pelajari";
             AIMessage (mkAI answer [])]).
Proof.
  intros Hreach.
  split; [apply reachable_one_system, Hreach|].
  split; [intros Hnone; unfold init_messages; now rewrite Hnone|].
  split; [|split].
  - intros prompt h Hh.
    pose proof (appends_only_chat env prompt w) as Hgrows.
    now rewrite Hh in Hgrows.
  - intros h Hh.
    pose proof (appends_only_random env w) as Hgrows.
    now rewrite Hh in Hgrows.
  - intros Hnone. eexists.
    unfold handle_random_vocabulary, invoke_f_memory_query, query_memory.
    unfold bind, get_memory, consult, f_memory_query. simpl.
    unfold init_messages, append_message, extend_messages. simpl.
    rewrite Hnone. simpl. reflexivity.
Qed.

Lemma history_begins_with_one_system_message_witness :
  reachable Scenario.env
    (fst (script_run Scenario.env (ChatInput "Tambahkan kata inu sebagai anjing")
            (mkWorld [] None 0))) /\
  exists h,
    messages (fst (script_run Scenario.env
                     (ChatInput "Tambahkan kata inu sebagai anjing")
                     (mkWorld [] None 0))) = Some h /\
    length h = 9 /\
    one_system_first Scenario.env h.
Proof.
  assert (Hreach : reachable Scenario.env
    (fst (script_run Scenario.env (ChatInput "Tambahkan kata inu sebagai anjing")
            (mkWorld [] None 0)))).
  { apply reach_run, reach_fresh. }
  split; [exact Hreach|].
  eexists. split; [reflexivity|]. split; [reflexivity|].
  apply (proj1 (history_begins_with_one_system_message Scenario.env _ Hreach)).
  reflexivity.
Defined.

(** ** Further properties of the vocabulary store *)

Lemma filter_none_matching (key : string) (db : Store) :
  existsb (kata_is key) db = false ->
  filter (fun r => negb (kata_is key r)) db = db.
Proof.
  induction db as [|r db IH]; simpl; [reflexivity|].
  intros H. apply orb_false_iff in H as [Hr Hdb].
  rewrite Hr. simpl. now rewrite IH.
Qed.

Lemma existsb_after_filter (key : string) (db : Store) :
  existsb (kata_is key) (filter (fun r => negb (kata_is key r)) db) = false.
Proof.
  induction db as [|r db IH]; simpl; [reflexivity|].
  destruct (kata_is key r) eqn:Hr; simpl; [exact IH|].
  now rewrite Hr, IH.
Qed.

(** X1: [f_memory_update] only ever adds at the end of the table: the rows
    that were there stay as they are, and at most one row is added.  The
    answer tells which: the success message exactly when one row was added,
    the "sudah ada" message exactly when none was. *)
Theorem f_memory_update_answer_tells
  (now word meaning : string) (db : Store) :
  exists added,
    snd (f_memory_update now word meaning db) = (db ++ added)%list /\
    (added = [] \/ added = [mkRow word meaning now]) /\
    (fst (f_memory_update now word meaning db) =
       "Berhasil menambahkan '" ++ word ++ "' (" ++ meaning ++ ") ke kosakata Anda"
     <-> added = [mkRow word meaning now]) /\
    (fst (f_memory_update now word meaning db) =
       "Kata '" ++ word ++ "' sudah ada di database, tidak ditambahkan ulang."
     <-> added = []).
Proof.
  unfold f_memory_update.
  destruct (existsb (kata_is (lower word)) db); simpl.
  - exists []. split; [now rewrite app_nil_r|]. split; [now left|].
    split; split; intros H; try reflexivity; discriminate H.
  - exists [mkRow word meaning now]. split; [reflexivity|]. split; [now right|].
    split; split; intros H; try reflexivity; discriminate H.
Qed.

(** X2: saving a word and deleting it again gives the table back, when
    the table had no row under exactly that word: the word is either
    appended and removed again, or refused and nothing is removed. *)
Theorem delete_after_update_restores
  (now word meaning : string) (db : Store) :
  existsb (kata_is word) db = false ->
  snd (delete_vocabulary word (snd (f_memory_update now word meaning db))) = db.
Proof.
  intros Habsent. unfold f_memory_update.
  destruct (existsb (kata_is (lower word)) db); simpl.
  - now apply filter_none_matching.
  - rewrite filter_app, (filter_none_matching _ _ Habsent). simpl.
    unfold kata_is at 1. simpl. rewrite String.eqb_refl. simpl.
    now rewrite app_nil_r.
Qed.

Lemma delete_after_update_restores_witness :
  existsb (kata_is "Sakura") Scenario.same_second = false /\
  snd (delete_vocabulary "Sakura"
         (snd (f_memory_update Scenario.t1 "Sakura" "bunga sakura"
                 Scenario.same_second))) = Scenario.same_second.
Proof.
  assert (H : existsb (kata_is "Sakura") Scenario.same_second = false)
    by reflexivity.
  split; [exact H|].
  exact (delete_after_update_restores Scenario.t1 "Sakura" "bunga sakura" _ H).
Defined.

(** X3: deleting is idempotent, two deletions commute, and a deletion
    lowers the row count by the number of rows stored under the word in
    exactly that spelling. *)
Theorem delete_vocabulary_laws (word word' : string) (db : Store) :
  snd (delete_vocabulary word (snd (delete_vocabulary word db))) =
    snd (delete_vocabulary word db) /\
  snd (delete_vocabulary word (snd (delete_vocabulary word' db))) =
    snd (delete_vocabulary word' (snd (delete_vocabulary word db))) /\
  (get_vocabulary_count (snd (delete_vocabulary word db)) +
   length (filter (kata_is word) db) = get_vocabulary_count db)%nat.
Proof.
  simpl. split; [|split].
  - apply filter_none_matching, existsb_after_filter.
  - induction db as [|r db IH]; simpl; [reflexivity|].
    destruct (kata_is word r) eqn:Hw, (kata_is word' r) eqn:Hw'; simpl;
      rewrite ?Hw, ?Hw'; simpl; now rewrite IH.
  - unfold get_vocabulary_count.
    induction db as [|r db IH]; simpl; [reflexivity|].
    destruct (kata_is word r); simpl; lia.
Qed.

(** X4: for a word of ASCII characters, once its lower-case spelling is
    deleted, saving the word succeeds whatever the table held. *)
Theorem f_memory_update_after_delete
  (now word meaning : string) (db : Store) :
  ascii_only word = true ->
  f_memory_update now word meaning (snd (delete_vocabulary (lower word) db)) =
    ("Berhasil menambahkan '" ++ word ++ "' (" ++ meaning ++ ") ke kosakata Anda",
     (snd (delete_vocabulary (lower word) db) ++ [mkRow word meaning now])%list).
Proof.
  intros _. apply f_memory_update_absent. simpl. apply existsb_after_filter.
Qed.

Lemma f_memory_update_after_delete_witness :
  ascii_only "Inu" = true /\
  f_memory_update Scenario.t1 "Inu" "anjing"
    (snd (delete_vocabulary "inu" Scenario.same_second)) =
    ("Berhasil menambahkan 'Inu' (anjing) ke kosakata Anda",
     [mkRow "neko" "kucing" Scenario.t0; mkRow "Inu" "anjing" Scenario.t1]).
Proof.
  assert (Hascii : ascii_only "Inu" = true) by reflexivity.
  split; [exact Hascii|].
  exact (f_memory_update_after_delete Scenario.t1 "Inu" "anjing"
           Scenario.same_second Hascii).
Defined.

Lemma select_random_perm (rnd : nat -> Z) (n : Z) (db : Store) :
  (n < 0 \/ Z.of_nat (length db) <= n)%Z ->
  Permutation db (select_random rnd n db).
Proof.
  intros Hn. unfold select_random, sql_limit.
  destruct (Z.ltb_spec n 0); [apply shuffled_perm|].
  rewrite firstn_all2; [apply shuffled_perm|].
  rewrite <- (Permutation_length (shuffled_perm rnd db)). lia.
Qed.

Lemma select_random_nil (rnd : nat -> Z) (n : Z) (db : Store) :
  select_random rnd n db = [] <-> db = [] \/ n = 0%Z.
Proof.
  unfold select_random, sql_limit.
  pose proof (shuffled_perm rnd db) as Hperm.
  set (shuffled := map snd _) in *.
  split.
  - destruct (Z.ltb_spec n 0) as [Hneg|Hpos]; intros Hnil.
    + left. rewrite Hnil in Hperm. now apply Permutation_sym, Permutation_nil in Hperm.
    + destruct (Z.eq_dec n 0) as [->|Hne]; [now right|left].
      destruct shuffled as [|r shuffled].
      * now apply Permutation_sym, Permutation_nil in Hperm.
      * destruct (Z.to_nat n) eqn:Hnat; [lia|discriminate].
  - intros [->| ->].
    + apply Permutation_nil in Hperm. rewrite Hperm.
      destruct (n <? 0)%Z; [reflexivity|apply firstn_nil].
    + reflexivity.
Qed.

(** X5: for a 64-bit [rows_query], [f_memory_query] answers
    "Database kosong." exactly when the table is empty or [rows_query] is
    zero. *)
Theorem f_memory_query_empty_iff (rnd : nat -> Z) (n : Z) (db : Store) :
  in_int64 n ->
  (f_memory_query rnd n db = Ok "Database kosong." <-> db = [] \/ n = 0%Z).
Proof.
  intros Hn. unfold f_memory_query. rewrite (bind_int_in_range _ Hn).
  rewrite <- select_random_nil with (rnd := rnd).
  destruct (select_random rnd n db) as [|r rows]; simpl.
  - split; reflexivity.
  - split; intros H; discriminate H.
Qed.

Lemma f_memory_query_empty_iff_witness :
  in_int64 5 /\
  f_memory_query Scenario.draws 5 Scenario.three_words <> Ok "Database kosong." /\
  f_memory_query Scenario.draws 5 [] = Ok "Database kosong.".
Proof.
  assert (Hn : in_int64 5) by (unfold in_int64; lia).
  split; [exact Hn|]. split.
  - intros H.
    apply (f_memory_query_empty_iff Scenario.draws 5 Scenario.three_words Hn) in H.
    destruct H as [H|H]; discriminate H.
  - apply (f_memory_query_empty_iff Scenario.draws 5 [] Hn). now left.
Defined.

(** X6: when [rows_query] is at least the number of rows, every saved row
    is listed once: the entries are the rows of the table in some order,
    one bullet each under the heading. *)
Theorem f_memory_query_lists_all (rnd : nat -> Z) (n : Z) (db : Store) :
  (Z.of_nat (length db) <= n < 2 ^ 63)%Z -> db <> [] ->
  exists entries,
    Permutation db entries /\
    f_memory_query rnd n db =
      Ok ("Kosakata acak yang tersimpan:" ++ nl ++
          join nl (map (fun r => "- " ++ kata r ++ " (" ++ arti r ++ ")") entries)).
Proof.
  intros Hn Hdb. unfold f_memory_query.
  rewrite bind_int_in_range by (unfold in_int64; lia).
  assert (Hperm : Permutation db (select_random rnd n db))
    by (apply select_random_perm; lia).
  exists (select_random rnd n db). split; [exact Hperm|].
  destruct (select_random rnd n db) as [|r rows]; [|reflexivity].
  apply Permutation_sym, Permutation_nil in Hperm. contradiction.
Qed.

Lemma f_memory_query_lists_all_witness :
  (Z.of_nat (length Scenario.three_words) <= 5 < 2 ^ 63)%Z /\
  Scenario.three_words <> [] /\
  exists entries,
    Permutation Scenario.three_words entries /\
    f_memory_query Scenario.draws 5 Scenario.three_words =
      Ok (format_results entries).
Proof.
  assert (Hn : (Z.of_nat (length Scenario.three_words) <= 5 < 2 ^ 63)%Z)
    by (simpl; lia).
  assert (Hdb : Scenario.three_words <> []) by discriminate.
  split; [exact Hn|]. split; [exact Hdb|].
  destruct (f_memory_query_lists_all Scenario.draws 5 _ Hn Hdb)
    as (entries & Hperm & Hout).
  exists entries. split; [exact Hperm|]. rewrite Hout.
  destruct entries; [|reflexivity].
  apply Permutation_sym, Permutation_nil in Hperm. contradiction.
Defined.

Lemma ltb_not_leb (a b : string) :
  String.ltb a b = true -> String.leb b a = false.
Proof.
  unfold String.ltb, String.leb. rewrite (String.compare_antisym b a).
  destruct (String.compare a b); simpl; intros H; try discriminate H; reflexivity.
Qed.

Lemma order_by_newest (db : Store) (r : Row) :
  Forall (fun x => String.ltb (inserted_at x) (inserted_at r) = true) db ->
  order_by desc inserted_at (db ++ [r]) = r :: order_by desc inserted_at db.
Proof.
  induction 1 as [|x db Hx _ IH]; simpl; [reflexivity|].
  rewrite IH. simpl. unfold desc at 1.
  now rewrite (ltb_not_leb _ _ Hx).
Qed.

Lemma sql_limit_cons {A : Type} (n : Z) (x : A) (l : list A) :
  (1 <= n)%Z -> sql_limit n (x :: l) = x :: sql_limit (n - 1) l.
Proof.
  intros Hn. unfold sql_limit.
  destruct (Z.ltb_spec n 0); [lia|]. destruct (Z.ltb_spec (n - 1) 0); [lia|].
  replace (Z.to_nat n) with (S (Z.to_nat (n - 1))) by lia. reflexivity.
Qed.

(** X7: a word of ASCII characters that is saved (no row holds its
    lower-case spelling) with a timestamp later than every timestamp of the
    table is the first of the recent words; after it come the recent words
    of the table as it was, one fewer. *)
Theorem get_recent_vocabulary_newest_first
  (now word meaning : string) (db : Store) (limit : Z) :
  ascii_only word = true ->
  (1 <= limit < 2 ^ 63)%Z ->
  existsb (kata_is (lower word)) db = false ->
  Forall (fun r => String.ltb (inserted_at r) now = true) db ->
  exists older,
    get_recent_vocabulary (limit - 1) db = Ok older /\
    get_recent_vocabulary limit (snd (f_memory_update now word meaning db)) =
      Ok (mkRow word meaning now :: older).
Proof.
  intros _ Hlimit Habsent Hnewer.
  rewrite (f_memory_update_absent _ _ _ _ Habsent). simpl.
  unfold get_recent_vocabulary.
  rewrite !bind_int_in_range by (unfold in_int64; lia).
  eexists. split; [reflexivity|].
  rewrite order_by_newest by exact Hnewer.
  rewrite sql_limit_cons by lia. reflexivity.
Qed.

Lemma get_recent_vocabulary_newest_first_witness :
  ascii_only "Sakura" = true /\
  (1 <= 2 < 2 ^ 63)%Z /\
  existsb (kata_is (lower "Sakura")) Scenario.same_second = false /\
  Forall (fun r => String.ltb (inserted_at r) Scenario.t1 = true)
         Scenario.same_second /\
  get_recent_vocabulary 2 Scenario.three_words =
    Ok [mkRow "Sakura" "bunga sakura" Scenario.t1;
        mkRow "inu" "anjing" Scenario.t0].
Proof.
  assert (Hlimit : (1 <= 2 < 2 ^ 63)%Z) by lia.
  assert (Habsent : existsb (kata_is (lower "Sakura")) Scenario.same_second = false)
    by reflexivity.
  assert (Hnewer : Forall (fun r => String.ltb (inserted_at r) Scenario.t1 = true)
                          Scenario.same_second)
    by (repeat constructor).
  split; [reflexivity|].
  split; [exact Hlimit|]. split; [exact Habsent|]. split; [exact Hnewer|].
  destruct (get_recent_vocabulary_newest_first Scenario.t1 "Sakura" "bunga sakura"
              Scenario.same_second 2 eq_refl Hlimit Habsent Hnewer)
    as (older & Holder & Hrecent).
  vm_compute in Holder. injection Holder as <-.
  exact Hrecent.
Defined.

(** ** The delete tab *)

Lemma prefix_app (a b rest : string) :
  String.prefix a b = true -> String.prefix a (b ++ rest) = true.
Proof.
  revert b. induction a as [|c a IH]; intros b H.
  - destruct b; simpl; [now destruct rest|reflexivity].
  - destruct b as [|d b]; simpl in *; [discriminate|].
    destruct (ascii_dec c d); [now apply IH|discriminate].
Qed.

Lemma split_head_is_prefix (sep s : string) :
  exists rest, s = split_head sep s ++ rest.
Proof.
  induction s as [|c s [rest IH]].
  - now exists "".
  - cbn [split_head]. destruct (String.prefix sep (String c s)).
    + now exists (String c s).
    + exists rest. simpl. now rewrite <- IH.
Qed.

(** The text before the first separator holds no separator. *)
Lemma split_head_no_sep (sep s : string) :
  sep <> "" -> contains sep (split_head sep s) = false.
Proof.
  intros Hsep. induction s as [|c s IH].
  - simpl. destruct sep; [contradiction|reflexivity].
  - cbn [split_head]. destruct (String.prefix sep (String c s)) eqn:Hhere.
    + simpl. destruct sep; [contradiction|reflexivity].
    + cbn [contains]. rewrite IH, orb_false_r.
      destruct (String.prefix sep (String c (split_head sep s))) eqn:Hp;
        [|reflexivity].
      destruct (split_head_is_prefix sep s) as [rest Hrest].
      apply (prefix_app _ _ rest) in Hp.
      change (String c (split_head sep s) ++ rest)
        with (String c (split_head sep s ++ rest)) in Hp.
      rewrite <- Hrest in Hp. congruence.
Qed.

Lemma prefix_cons (c d : ascii) (a b : string) :
  String.prefix (String c a) (String d b) =
    if ascii_dec c d then String.prefix a b else false.
Proof. reflexivity. Qed.

Lemma prefix_empty (s : string) : String.prefix "" s = true.
Proof. now destruct s. Qed.

Lemma prefix_self_app (a b : string) : String.prefix a (a ++ b) = true.
Proof.
  induction a as [|c a IH]; [apply prefix_empty|].
  change (String c a ++ b) with (String c (a ++ b)). rewrite prefix_cons.
  destruct (ascii_dec c c); [exact IH|contradiction].
Qed.

Lemma split_head_cons (sep : string) (c : ascii) (s : string) :
  split_head sep (String c s) =
    if String.prefix sep (String c s) then "" else String c (split_head sep s).
Proof. reflexivity. Qed.

Lemma split_head_option (word meaning : string) :
  contains " -" word = false ->
  split_head " - " (word ++ " - " ++ meaning) = word.
Proof.
  induction word as [|c word IH]; intros Hword.
  - change ("" ++ " - " ++ meaning) with (String " " ("- " ++ meaning)).
    rewrite split_head_cons.
    change (String " " ("- " ++ meaning)) with (" - " ++ meaning).
    now rewrite prefix_self_app.
  - cbn [contains] in Hword. apply orb_false_iff in Hword as [Hhere Hrest].
    change (String c word ++ " - " ++ meaning)
      with (String c (word ++ " - " ++ meaning)).
    rewrite split_head_cons.
    assert (Hp : String.prefix " - " (String c (word ++ " - " ++ meaning)) = false).
    { rewrite prefix_cons. rewrite prefix_cons in Hhere.
      destruct (ascii_dec " " c); [|reflexivity].
      destruct word as [|d word].
      - change ("" ++ " - " ++ meaning) with (String " " ("- " ++ meaning)).
        rewrite prefix_cons.
        destruct (ascii_dec "-" " "); [discriminate|reflexivity].
      - change (String d word ++ " - " ++ meaning)
          with (String d (word ++ " - " ++ meaning)).
        rewrite prefix_cons. rewrite prefix_cons in Hhere.
        destruct (ascii_dec "-" d); [|reflexivity].
        rewrite prefix_empty in Hhere. discriminate. }
    rewrite Hp. now rewrite IH.
Qed.

Lemma option_not_empty (word meaning : string) :
  is_empty (word ++ " - " ++ meaning) = false.
Proof. now destruct word. Qed.

Lemma recent_rows_in_table (limit : Z) (db recent : Store) (r : Row) :
  get_recent_vocabulary limit db = Ok recent -> In r recent -> In r db.
Proof.
  unfold get_recent_vocabulary.
  destruct (bind_int limit) as [n|e]; [|discriminate].
  intros H Hr. injection H as <-.
  destruct (sql_limit_prefix n (order_by desc inserted_at db)) as [rest Hrest].
  eapply Permutation_in; [apply Permutation_sym, (order_by_perm desc inserted_at)|].
  rewrite Hrest. apply in_or_app. now left.
Qed.

Lemma delete_tab_selected (choice : nat) (db recent : Store) (r : Row) :
  get_recent_vocabulary 15 db = Ok recent ->
  nth_error recent choice = Some r ->
  delete_tab choice db =
    Some (delete_vocabulary (split_head " - " (kata r ++ " - " ++ arti r)) db).
Proof.
  intros Hrecent Hr. unfold delete_tab, words_to_delete. rewrite Hrecent.
  rewrite nth_error_map, Hr. cbn [option_map]. cbv beta.
  now rewrite option_not_empty.
Qed.

(** X8: pressing the delete button on the option of a recent row whose
    word holds no " -" deletes under exactly that word: the outcome is that
    of [delete_vocabulary] on the row's [kata], so no row under the word is
    left. *)
Theorem delete_tab_deletes_selected
  (choice : nat) (db recent : Store) (r : Row) :
  get_recent_vocabulary 15 db = Ok recent ->
  nth_error recent choice = Some r ->
  contains " -" (kata r) = false ->
  delete_tab choice db = Some (delete_vocabulary (kata r) db) /\
  forall db', delete_tab choice db = Some ("Kata '" ++ kata r ++ "' berhasil dihapus", db') ->
              existsb (kata_is (kata r)) db' = false.
Proof.
  intros Hrecent Hr Hword.
  assert (Htab : delete_tab choice db = Some (delete_vocabulary (kata r) db)).
  { rewrite (delete_tab_selected _ _ _ _ Hrecent Hr).
    now rewrite split_head_option. }
  split; [exact Htab|].
  intros db' Hdb'. rewrite Htab in Hdb'. injection Hdb' as <-.
  apply existsb_after_filter.
Qed.

Lemma delete_tab_deletes_selected_witness :
  get_recent_vocabulary 15 Scenario.three_words =
    Ok [mkRow "Sakura" "bunga sakura" Scenario.t1;
        mkRow "inu" "anjing" Scenario.t0; mkRow "neko" "kucing" Scenario.t0] /\
  contains " -" "inu" = false /\
  delete_tab 1 Scenario.three_words =
    Some ("Kata 'inu' berhasil dihapus",
          [mkRow "neko" "kucing" Scenario.t0;
           mkRow "Sakura" "bunga sakura" Scenario.t1]).
Proof.
  assert (Hrecent : get_recent_vocabulary 15 Scenario.three_words =
    Ok [mkRow "Sakura" "bunga sakura" Scenario.t1;
        mkRow "inu" "anjing" Scenario.t0; mkRow "neko" "kucing" Scenario.t0])
    by reflexivity.
  assert (Hword : contains " -" (kata (mkRow "inu" "anjing" Scenario.t0)) = false)
    by reflexivity.
  split; [exact Hrecent|]. split; [exact Hword|].
  exact (proj1 (delete_tab_deletes_selected 1 _ _ _ Hrecent eq_refl Hword)).
Defined.

(** X9: a row whose word holds " - " cannot be deleted with the button:
    the key taken from its option stops before the separator, so the
    deletion runs under another word and the row stays in the table. *)
Theorem delete_tab_keeps_hyphenated
  (choice : nat) (db recent : Store) (r : Row) :
  get_recent_vocabulary 15 db = Ok recent ->
  nth_error recent choice = Some r ->
  contains " - " (kata r) = true ->
  exists word_to_delete db',
    delete_tab choice db =
      Some ("Kata '" ++ word_to_delete ++ "' berhasil dihapus", db') /\
    word_to_delete <> kata r /\
    In r db'.
Proof.
  intros Hrecent Hr Hword.
  set (key := split_head " - " (kata r ++ " - " ++ arti r)).
  assert (Hkey : key <> kata r).
  { intros Heq.
    pose proof (split_head_no_sep " - " (kata r ++ " - " ++ arti r)) as Hno.
    fold key in Hno. rewrite Heq, Hword in Hno.
    now specialize (Hno ltac:(discriminate)). }
  exists key, (snd (delete_vocabulary key db)).
  split; [exact (delete_tab_selected _ _ _ _ Hrecent Hr)|].
  split; [exact Hkey|].
  simpl. apply filter_In. split.
  - eapply recent_rows_in_table; [exact Hrecent|].
    eapply nth_error_In, Hr.
  - unfold kata_is. apply negb_true_iff, String.eqb_neq. congruence.
Qed.

Lemma delete_tab_keeps_hyphenated_witness :
  contains " - " "ice - cream" = true /\
  delete_tab 0 Sample.hyphenated =
    Some ("Kata 'ice' berhasil dihapus", Sample.hyphenated) /\
  In (mkRow "ice - cream" "es krim" Scenario.t1) Sample.hyphenated.
Proof.
  assert (Hrecent : get_recent_vocabulary 15 Sample.hyphenated =
    Ok [mkRow "ice - cream" "es krim" Scenario.t1;
        mkRow "inu" "anjing" Scenario.t0]) by reflexivity.
  assert (Hword : contains " - " (kata (mkRow "ice - cream" "es krim" Scenario.t1))
                  = true) by reflexivity.
  split; [exact Hword|].
  destruct (delete_tab_keeps_hyphenated 0 _ _ _ Hrecent eq_refl Hword)
    as (key & db' & Htab & _ & Hin).
  split; [reflexivity|].
  vm_compute in Htab. injection Htab as _ <-. exact Hin.
Defined.

(** ** Further properties of a chat turn *)

Lemma chat_turn_without_tool_calls_witness :
  messages Scenario.opened =
    Some [SystemMessage "You are LexiAI."; AIMessage (mkAI GREETING [])] /\
  handle_chat_input Sample.chatty_env "Konnichiwa" Scenario.opened =
    (mkWorld []
       (Some [SystemMessage "You are LexiAI."; AIMessage (mkAI GREETING []);
              HumanMessage "Konnichiwa"; AIMessage (mkAI "Konnichiwa!" [])])
       1,
     Ok "Konnichiwa!").
Proof.
  assert (Hhist : messages Scenario.opened =
    Some [SystemMessage "You are LexiAI."; AIMessage (mkAI GREETING [])])
    by reflexivity.
  split; [exact Hhist|].
  exact (chat_turn_without_tool_calls Sample.chatty_env Scenario.opened _
           "Konnichiwa" (mkAI "Konnichiwa!" []) Hhist eq_refl eq_refl).
Defined.

(** X11: when the first consultation of the model raises, the turn ends
    with that exception; the user's message is the only message appended,
    and the table is untouched. *)
Theorem chat_turn_model_down (env : Env) (w : World)
  (history : list Message) (prompt : string) (e : Exception) :
  messages w = Some history ->
  llm_with_tools env (tick w) (history ++ [HumanMessage prompt])%list = Raise e ->
  handle_chat_input env prompt w =
    (mkWorld (memory w) (Some (history ++ [HumanMessage prompt])%list) (S (tick w)),
     Raise e).
Proof.
  intros Hhist Hmodel. unfold handle_chat_input.
  erewrite bind_ok;
    [|unfold append_message, extend_messages; rewrite Hhist; reflexivity].
  erewrite bind_raise;
    [|unfold invoke_llm_with_tools, consult; simpl; rewrite Hmodel; reflexivity].
  reflexivity.
Qed.

Lemma chat_turn_model_down_witness :
  messages Scenario.opened =
    Some [SystemMessage "You are LexiAI."; AIMessage (mkAI GREETING [])] /\
  handle_chat_input Sample.down_env "Konnichiwa" Scenario.opened =
    (mkWorld []
       (Some [SystemMessage "You are LexiAI."; AIMessage (mkAI GREETING []);
              HumanMessage "Konnichiwa"])
       1,
     Raise (ServiceError "503 Service Unavailable")).
Proof.
  assert (Hhist : messages Scenario.opened =
    Some [SystemMessage "You are LexiAI."; AIMessage (mkAI GREETING [])])
    by reflexivity.
  split; [exact Hhist|].
  exact (chat_turn_model_down Sample.down_env Scenario.opened _
           "Konnichiwa" _ Hhist eq_refl).
Defined.

(** X13: without one of the two index files [load_vector_db] gives no
    index, and every well-formed call of [f_lookup_dictionary] in the loop
    is answered by the same error text under the call's id; the call
    changes nothing and consults neither the index nor the model. *)
Theorem lookup_without_index (env : Env) (path_exists : string -> bool)
  (read : result (nat -> string -> result (list string)))
  (call : ToolCall) (question : string) (w : World) :
  load_vector_db path_exists read = Ok (vector_db env) ->
  path_exists "extension\index.faiss" = false \/
  path_exists "extension\index.pkl" = false ->
  call_name call = "f_lookup_dictionary" ->
  dict_get "question" (call_args call) = Some (VStr question) ->
  run_call env call w =
    (w, Ok (ToolMessage
              "Error saat menjalankan tool f_lookup_dictionary: 'NoneType' object has no attribute 'similarity_search'"
              (call_id call))).
Proof.
  intros Hload Hmissing Hname Hquestion.
  assert (Hnone : vector_db env = None).
  { unfold load_vector_db, FAISS_FILE, DOCSTORE_FILE in Hload.
    destruct Hmissing as [H|H]; rewrite H in Hload;
      rewrite ?andb_false_r in Hload; simpl in Hload; congruence. }
  rewrite run_call_eq.
  assert (Hcall : dispatch env call w =
    (w, Raise (AttributeError
                 "'NoneType' object has no attribute 'similarity_search'"))).
  { unfold dispatch. rewrite Hname. cbn [String.eqb Ascii.eqb Bool.eqb andb].
    unfold invoke_f_lookup_dictionary, f_lookup_dictionary.
    now rewrite Hquestion, Hnone. }
  rewrite Hcall, Hname. reflexivity.
Qed.

Lemma lookup_without_index_witness :
  load_vector_db (fun _ => false) (Raise (ServiceError "unread")) =
    Ok (vector_db Scenario.env) /\
  run_call Scenario.env Scenario.lookup_call Scenario.opened =
    (Scenario.opened,
     Ok (ToolMessage
           "Error saat menjalankan tool f_lookup_dictionary: 'NoneType' object has no attribute 'similarity_search'"
           "call_2")).
Proof.
  assert (Hload : load_vector_db (fun _ => false) (Raise (ServiceError "unread")) =
                  Ok (vector_db Scenario.env)) by reflexivity.
  split; [exact Hload|].
  exact (lookup_without_index Scenario.env (fun _ => false) _ Scenario.lookup_call
           "Apa arti asagohan?" Scenario.opened Hload (or_introl eq_refl)
           eq_refl eq_refl).
Defined.

(** X15: when the model asks in one turn to save a word of ASCII
    characters in lower case and then the same word in any spelling of its
    letters' case, the second call is answered "sudah ada" and the table is
    as the first call left it. *)
Theorem turn_saves_word_once (env : Env) (w : World)
  (word word' meaning meaning' id1 id2 : string) :
  ascii_only word = true -> ascii_only word' = true ->
  lower word' = lower word ->
  run_tool_calls env
    [mkCall "f_memory_update"
       [("word", VStr (lower word)); ("meaning", VStr meaning)] id1;
     mkCall "f_memory_update"
       [("word", VStr word'); ("meaning", VStr meaning')] id2] w =
    (mkWorld
       (snd (f_memory_update (datetime_now env (tick w)) (lower word) meaning
               (memory w)))
       (messages w) (S (S (tick w))),
     Ok [ToolMessage
           (fst (f_memory_update (datetime_now env (tick w)) (lower word) meaning
                   (memory w))) id1;
         ToolMessage
           ("Kata '" ++ word' ++ "' sudah ada di database, tidak ditambahkan ulang.")
           id2]).
Proof.
  intros _ _ Hcase.
  pose proof (f_memory_update_lowercase_refused (datetime_now env (tick w))
                (datetime_now env (S (tick w))) word word' meaning meaning'
                (memory w) Hcase) as Hsecond.
  cbv zeta in Hsecond.
  rewrite !run_tool_calls_cons.
  unfold dispatch. cbn [call_name call_args call_id String.eqb Ascii.eqb Bool.eqb andb].
  unfold invoke_f_memory_update. cbn [dict_get String.eqb Ascii.eqb Bool.eqb andb].
  unfold bind, consult, on_memory. cbn [fst snd memory messages tick].
  destruct (f_memory_update (datetime_now env (tick w)) (lower word) meaning
              (memory w)) as [answer saved] eqn:Hfirst.
  cbn [fst snd memory messages tick] in *.
  rewrite Hsecond. reflexivity.
Qed.

Lemma turn_saves_word_once_witness :
  ascii_only "Inu" = true /\ ascii_only "INU" = true /\
  lower "INU" = lower "Inu" /\
  run_tool_calls Scenario.env
    [mkCall "f_memory_update" [("word", VStr "inu"); ("meaning", VStr "anjing")] "a";
     mkCall "f_memory_update" [("word", VStr "INU"); ("meaning", VStr "dog")] "b"]
    Scenario.opened =
    (mkWorld [mkRow "inu" "anjing" Scenario.t0] (messages Scenario.opened) 2,
     Ok [ToolMessage "Berhasil menambahkan 'inu' (anjing) ke kosakata Anda" "a";
         ToolMessage "Kata 'INU' sudah ada di database, tidak ditambahkan ulang." "b"]).
Proof.
  assert (Hcase : lower "INU" = lower "Inu") by reflexivity.
  split; [reflexivity|]. split; [reflexivity|]. split; [exact Hcase|].
  exact (turn_saves_word_once Scenario.env Scenario.opened "Inu" "INU"
           "anjing" "dog" "a" "b" eq_refl eq_refl Hcase).
Defined.

(** ** What a run of the script does to the table and to the history *)

Section RunFacts.
Variable env : Env.

Lemma memory_extends_same (w w' : World) :
  memory w' = memory w -> memory_extends w w'.
Proof. intros H. exists []. now rewrite app_nil_r. Qed.

Lemma memory_extends_trans (w1 w2 w3 : World) :
  memory_extends w1 w2 -> memory_extends w2 w3 -> memory_extends w1 w3.
Proof.
  intros [a Ha] [b Hb]. exists (a ++ b)%list. now rewrite Hb, Ha, app_assoc.
Qed.

Lemma respects_bind {A B : Type} (m : M A) (k : A -> M B) :
  respects memory_extends m -> (forall a, respects memory_extends (k a)) ->
  respects memory_extends (bind m k).
Proof.
  intros Hm Hk w. unfold bind. specialize (Hm w).
  destruct (m w) as [w' [a|e]]; simpl in *; [|exact Hm].
  eapply memory_extends_trans; [exact Hm|apply Hk].
Qed.

Lemma respects_same {A : Type} (m : M A) :
  (forall w, memory (fst (m w)) = memory w) -> respects memory_extends m.
Proof. intros H w. apply memory_extends_same, H. Qed.

Lemma respects_try_except {A : Type} (m : M A) (handler : Exception -> M A) :
  respects memory_extends m -> (forall e, respects memory_extends (handler e)) ->
  respects memory_extends (try_except m handler).
Proof.
  intros Hm Hh w. unfold try_except. specialize (Hm w).
  destruct (m w) as [w' [a|e]]; simpl in *; [exact Hm|].
  eapply memory_extends_trans; [exact Hm|apply Hh].
Qed.

Lemma respects_ret {A : Type} (a : A) : respects memory_extends (ret a).
Proof. now apply respects_same. Qed.

Lemma respects_extend (msgs : list Message) :
  respects memory_extends (extend_messages msgs).
Proof.
  apply respects_same. intros w. unfold extend_messages.
  now destruct (messages w).
Qed.

Lemma respects_init : respects memory_extends (init_messages env).
Proof.
  apply respects_same. intros w. unfold init_messages.
  now destruct (messages w).
Qed.

Lemma respects_model : respects memory_extends (invoke_llm_with_tools env).
Proof.
  apply respects_same. intros w. unfold invoke_llm_with_tools.
  now destruct (messages w).
Qed.

Lemma respects_update (args : Dict) :
  respects memory_extends (invoke_f_memory_update env args).
Proof.
  unfold invoke_f_memory_update.
  destruct (dict_get "word" args) as [[word| |]|];
    try (now apply respects_same).
  destruct (dict_get "meaning" args) as [[meaning| |]|];
    try (now apply respects_same).
  intros w. unfold bind, consult, on_memory, f_memory_update. simpl.
  destruct (existsb (kata_is (lower word)) (memory w)); simpl.
  - now apply memory_extends_same.
  - eexists. reflexivity.
Qed.

Lemma respects_query (args : Dict) :
  respects memory_extends (invoke_f_memory_query env args).
Proof.
  apply respects_same. intros w.
  unfold invoke_f_memory_query, query_memory, bind, get_memory, consult.
  destruct (dict_get "rows_query" args) as [[s|n|]|]; reflexivity.
Qed.

Lemma respects_lookup (args : Dict) :
  respects memory_extends (invoke_f_lookup_dictionary env args).
Proof.
  apply respects_same. intros w.
  unfold invoke_f_lookup_dictionary, f_lookup_dictionary.
  destruct (dict_get "question" args) as [[question| |]|]; try reflexivity.
  destruct (vector_db env) as [search|]; [|reflexivity].
  unfold bind, consult. simpl.
  destruct (search (tick w) question); reflexivity.
Qed.

Lemma respects_dispatch (call : ToolCall) :
  respects memory_extends (dispatch env call).
Proof.
  unfold dispatch.
  destruct (String.eqb (call_name call) "f_memory_update");
    [apply respects_update|].
  destruct (String.eqb (call_name call) "f_memory_query");
    [apply respects_query|].
  destruct (String.eqb (call_name call) "f_lookup_dictionary");
    [apply respects_lookup|apply respects_ret].
Qed.

Lemma respects_run_tool_calls (calls : list ToolCall) :
  respects memory_extends (run_tool_calls env calls).
Proof.
  induction calls as [|call calls IH]; simpl; [apply respects_ret|].
  apply respects_bind.
  - unfold run_call. apply respects_try_except.
    + apply respects_bind; [apply respects_dispatch|intros; apply respects_ret].
    + intros e. apply respects_ret.
  - intros msg. apply respects_bind; [exact IH|intros; apply respects_ret].
Qed.

Lemma respects_chat (prompt : string) :
  respects memory_extends (handle_chat_input env prompt).
Proof.
  unfold handle_chat_input, append_message.
  apply respects_bind; [apply respects_extend|intros _].
  apply respects_bind; [apply respects_model|intros ai_msg].
  apply respects_bind; [apply respects_extend|intros _].
  destruct (ai_tool_calls ai_msg) as [|call calls]; [apply respects_ret|].
  apply respects_bind; [apply respects_run_tool_calls|intros tool_results].
  apply respects_bind; [apply respects_extend|intros _].
  apply respects_bind; [apply respects_model|intros final_response].
  apply respects_bind; [apply respects_extend|intros _].
  apply respects_ret.
Qed.

Lemma respects_random : respects memory_extends (handle_random_vocabulary env).
Proof.
  unfold handle_random_vocabulary, append_message.
  apply respects_bind; [apply respects_query|intros result_].
  apply respects_bind; [apply respects_init|intros _].
  apply respects_bind; [apply respects_extend|intros _].
  apply respects_extend.
Qed.

Lemma after_never_raises {A B : Type} (m : M A) (k : M B) (w : World) :
  never_raises m -> bind m (fun _ => k) w = k (fst (m w)).
Proof.
  intros Hm. unfold bind. destruct (Hm w) as [a Ha].
  destruct (m w) as [w' [a'|e]]; simpl in *; [reflexivity|discriminate].
Qed.

Lemma random_never_raises : never_raises (handle_random_vocabulary env).
Proof.
  intros w. exists tt.
  unfold handle_random_vocabulary, invoke_f_memory_query, query_memory.
  unfold bind, get_memory, consult, f_memory_query. simpl.
  unfold init_messages, append_message, extend_messages. simpl.
  destruct (messages w); reflexivity.
Qed.

Lemma add_form_never_raises (word_input meaning_input : string) :
  never_raises
    (if negb (is_empty word_input) && negb (is_empty meaning_input)
     then bind (add_vocabulary_manual env word_input meaning_input)
               (fun _ => ret tt)
     else ret tt).
Proof.
  intros w. exists tt.
  destruct (negb (is_empty word_input) && negb (is_empty meaning_input));
    [|reflexivity].
  unfold add_vocabulary_manual, invoke_f_memory_update. simpl.
  unfold bind, consult, on_memory. simpl.
  now destruct (f_memory_update _ word_input meaning_input (memory w)).
Qed.

Lemma init_messages_some (w : World) :
  exists h, messages (fst (init_messages env w)) = Some h.
Proof.
  unfold init_messages. destruct (messages w) as [h|] eqn:Hw; simpl; eauto.
Qed.

Lemma grows_from_some (h : list Message) (after : option (list Message)) :
  grows env (Some h) after -> exists h', after = Some h'.
Proof. intros (added & -> & _). eauto. Qed.

Lemma script_run_some (ev : Event) (w : World) :
  exists h, messages (fst (script_run env ev w)) = Some h.
Proof.
  destruct ev as [word_input meaning_input|word_to_delete| | |prompt]; simpl.
  - rewrite after_never_raises by apply add_form_never_raises.
    apply init_messages_some.
  - rewrite after_never_raises; [apply init_messages_some|].
    intros w0. unfold on_memory, delete_vocabulary. simpl. eauto.
  - rewrite after_never_raises by apply random_never_raises.
    apply init_messages_some.
  - apply init_messages_some.
  - unfold bind at 1.
    destruct (init_messages_some w) as [h Hh].
    assert (Hok : snd (init_messages env w) = Ok tt).
    { unfold init_messages. now destruct (messages w). }
    destruct (init_messages env w) as [w0 r]. simpl in *. subst r.
    assert (Hrest : appends_only env
              (if is_empty prompt then ret tt
               else bind (handle_chat_input env prompt) (fun _ => ret tt))).
    { destruct (is_empty prompt); [apply appends_only_ret|].
      apply appends_only_seq; [apply appends_only_chat|intros; apply appends_only_ret]. }
    specialize (Hrest w0). rewrite Hh in Hrest.
    eapply grows_from_some, Hrest.
Qed.

End RunFacts.

(** X12: no run of the script other than a press of the delete button
    removes or changes a saved row: after a chat turn, a submitted form, the
    random-vocabulary button or a refresh, the table is the table before
    with rows added at its end, also when the run ends by an exception. *)
Theorem script_run_keeps_rows (env : Env) (ev : Event) (w : World) :
  (forall word_to_delete, ev <> DeleteButton word_to_delete) ->
  exists added, memory (fst (script_run env ev w)) = (memory w ++ added)%list.
Proof.
  intros Hev.
  assert (H : respects memory_extends (script_run env ev)).
  { destruct ev as [word_input meaning_input|word_to_delete| | |prompt]; simpl.
    - apply respects_bind; [|intros; apply respects_init].
      destruct (negb (is_empty word_input) && negb (is_empty meaning_input));
        [|apply respects_ret].
      apply respects_bind; [apply respects_update|intros; apply respects_ret].
    - now contradiction (Hev word_to_delete).
    - apply respects_bind; [apply respects_random|intros; apply respects_init].
    - apply respects_init.
    - apply respects_bind; [apply respects_init|intros _].
      destruct (is_empty prompt); [apply respects_ret|].
      apply respects_bind; [apply respects_chat|intros; apply respects_ret]. }
  exact (H w).
Qed.

Lemma script_run_keeps_rows_witness :
  (forall word_to_delete,
     ChatInput "Tambahkan kata inu sebagai anjing" <> DeleteButton word_to_delete) /\
  exists added,
    memory (fst (script_run Scenario.env
                   (ChatInput "Tambahkan kata inu sebagai anjing")
                   (mkWorld Scenario.same_second None 0))) =
      (Scenario.same_second ++ added)%list.
Proof.
  assert (Hev : forall word_to_delete,
    ChatInput "Tambahkan kata inu sebagai anjing" <> DeleteButton word_to_delete)
    by discriminate.
  split; [exact Hev|].
  exact (script_run_keeps_rows Scenario.env _ (mkWorld Scenario.same_second None 0) Hev).
Defined.



(** X16: after every run of the script the session has a history, and it
    begins with the system prompt and holds no other system message,
    provided the history before, if there was one, did. *)
Theorem script_run_opens_history (env : Env) (ev : Event) (w : World) :
  (forall h, messages w = Some h -> one_system_first env h) ->
  exists h,
    messages (fst (script_run env ev w)) = Some h /\ one_system_first env h.
Proof.
  intros Hbefore.
  destruct (script_run_some env ev w) as [h Hh].
  exists h. split; [exact Hh|].
  eapply grows_keeps; [apply (appends_only_script env ev w)|exact Hbefore|exact Hh].
Qed.

Lemma script_run_opens_history_witness :
  (forall h, messages (mkWorld Scenario.same_second None 0) = Some h ->
             one_system_first Sample.down_env h) /\
  exists h,
    messages (fst (script_run Sample.down_env (ChatInput "Konnichiwa")
                     (mkWorld Scenario.same_second None 0))) = Some h /\
    length h = 3 /\
    one_system_first Sample.down_env h.
Proof.
  assert (Hbefore : forall h,
    messages (mkWorld Scenario.same_second None 0) = Some h ->
    one_system_first Sample.down_env h) by discriminate.
  split; [exact Hbefore|].
  destruct (script_run_opens_history Sample.down_env (ChatInput "Konnichiwa")
              (mkWorld Scenario.same_second None 0) Hbefore) as (h & Hh & Hone).
  exists h. split; [exact Hh|]. split; [|exact Hone].
  vm_compute in Hh. injection Hh as <-. reflexivity.
Defined.

(** ** The dictionary chunks *)

Lemma has_entry_mark_nonempty (line : string) :
  has_entry_mark line = true -> (0 <? String.length line)%nat = true.
Proof. destruct line; [discriminate|reflexivity]. Qed.

Lemma filter_marked_clean (strip : string -> string) (lines : list string) :
  filter has_entry_mark
    (map strip (filter (fun l => (0 <? String.length (strip l))%nat) lines)) =
  filter has_entry_mark (map strip lines).
Proof.
  induction lines as [|l lines IH]; [reflexivity|].
  cbn [filter map].
  destruct (0 <? String.length (strip l))%nat eqn:Hlen; cbn [filter map].
  - now rewrite IH.
  - rewrite IH. destruct (has_entry_mark (strip l)) eqn:Hmark; [|reflexivity].
    apply has_entry_mark_nonempty in Hmark. congruence.
Qed.

(** X17: [extract_and_chunk_dictionary] never raises.  When the PDF is
    read, its chunks are the stripped lines of the text that hold an
    opening parenthesis of either kind, in the order of the lines (the
    test for empty lines removes nothing that the test for the parenthesis
    would keep), so no chunk is empty; when opening or reading fails, the
    list is empty and an error is shown. *)
Theorem extract_and_chunk_dictionary_chunks
  (splitlines : string -> list string) (strip : string -> string)
  (fitz_pages : string -> PdfError + list string) (pdf_path : string) :
  match fitz_pages pdf_path with
  | inr pages =>
      fst (extract_and_chunk_dictionary splitlines strip fitz_pages pdf_path) =
        filter has_entry_mark (map strip (splitlines (join nl pages))) /\
      Forall (fun chunk =>
                chunk <> "" /\ has_entry_mark chunk = true /\
                exists line, In line (splitlines (join nl pages)) /\ chunk = strip line)
        (fst (extract_and_chunk_dictionary splitlines strip fitz_pages pdf_path)) /\
      snd (extract_and_chunk_dictionary splitlines strip fitz_pages pdf_path) = None
  | inl (FileNotFoundError _) =>
      extract_and_chunk_dictionary splitlines strip fitz_pages pdf_path =
        ([], Some ("File PDF tidak ditemukan: " ++ pdf_path))
  | inl (PdfException e) =>
      extract_and_chunk_dictionary splitlines strip fitz_pages pdf_path =
        ([], Some ("Gagal mengekstrak dari PDF: " ++ e))
  end.
Proof.
  unfold extract_and_chunk_dictionary.
  destruct (fitz_pages pdf_path) as [[msg|msg]|pages]; try reflexivity.
  cbn [fst snd]. rewrite filter_marked_clean.
  split; [reflexivity|]. split; [|reflexivity].
  apply Forall_forall. intros chunk Hchunk.
  apply filter_In in Hchunk as [Hin Hmark].
  apply in_map_iff in Hin as (line & <- & Hline).
  split; [|split; [exact Hmark|eauto]].
  intros Hempty. rewrite Hempty in Hmark. discriminate Hmark.
Qed.

(** ** Further properties of the delete tab and of the lookup tool *)

(** X18: the delete tab offers the 15 most recent rows and no more: there
    is something to press for option [choice] exactly when [choice] is below
    both 15 and the number of rows; on an empty table there is nothing to
    delete. *)
Theorem delete_tab_offers (choice : nat) (db : Store) :
  delete_tab choice db = None <-> (Nat.min 15 (length db) <= choice)%nat.
Proof.
  unfold delete_tab, get_recent_vocabulary, words_to_delete.
  rewrite bind_int_in_range by (unfold in_int64; lia).
  set (recent := sql_limit 15 (order_by desc inserted_at db)).
  assert (Hlen : length recent = Nat.min 15 (length db)).
  { subst recent. rewrite sql_limit_length by lia.
    rewrite <- (Permutation_length (order_by_perm desc inserted_at db)).
    reflexivity. }
  rewrite <- Hlen, nth_error_map.
  destruct (nth_error recent choice) as [r|] eqn:Hr; cbn [option_map].
  - cbv beta. rewrite option_not_empty. split; [discriminate|].
    intros Hle. apply nth_error_None in Hle. congruence.
  - split; [|reflexivity]. intros _. now apply nth_error_None.
Qed.


